(** * Gmail auto-reply bot: a shallow embedding of [main.py]

    The orchestration loop of [main.py] is embedded as a state-and-exception
    monad over an explicit program state (the in-memory [replied_senders]
    set, the contents of [replied_senders.csv], the [shutdown_requested]
    flag) together with the chronological list of externally visible
    effects (log records, console lines, sent mails, sleeps).

    The collaborators the program calls (the Gmail API, the chat-completion
    endpoint, [random.choice], the clock, signal delivery) are not code of
    the repository: what they answer is an input of the model, a script that
    the embedded functions consume exactly where the source makes the call.

    Python [str] values are [string]s holding the UTF-8 encoding of the
    text. *)

From Stdlib Require Import String Ascii List ZArith Lia Bool.
From stdpp Require Import base gmap sets list strings.

Import ListNotations.
Local Open Scope string_scope.
Local Open Scope list_scope.

(** ** Python string operations used by the source *)

Module PyStr.

Definition byte_is (n : nat) (a : ascii) : bool := Nat.eqb (nat_of_ascii a) n.

Definition in_range (lo hi : nat) (a : ascii) : bool :=
  Nat.leb lo (nat_of_ascii a) && Nat.leb (nat_of_ascii a) hi.

(** [str.isspace] on the code points below 128: U+0009..U+000D,
    U+001C..U+001F and U+0020. *)
Definition space1 (a : ascii) : bool :=
  in_range 9 13 a || in_range 28 32 a.

(** U+0085 and U+00A0, encoded [C2 85] and [C2 A0]. *)
Definition space2 (a b : ascii) : bool :=
  byte_is 194 a && (byte_is 133 b || byte_is 160 b).

(** U+1680 [E1 9A 80]; U+2000..U+200A [E2 80 80..8A]; U+2028, U+2029
    [E2 80 A8..A9]; U+202F [E2 80 AF]; U+205F [E2 81 9F]; U+3000
    [E3 80 80]. *)
Definition space3 (a b c : ascii) : bool :=
  (byte_is 225 a && byte_is 154 b && byte_is 128 c)
  || (byte_is 226 a && byte_is 128 b
      && (in_range 128 138 c || in_range 168 169 c || byte_is 175 c))
  || (byte_is 226 a && byte_is 129 b && byte_is 159 c)
  || (byte_is 227 a && byte_is 128 b && byte_is 128 c).

(** [s.lstrip()]: drop the leading white-space code points. *)
Fixpoint lstrip (s : string) : string :=
  match s with
  | EmptyString => EmptyString
  | String a s1 =>
      if space1 a then lstrip s1
      else match s1 with
           | EmptyString => s
           | String b s2 =>
               if space2 a b then lstrip s2
               else match s2 with
                    | EmptyString => s
                    | String c s3 => if space3 a b c then lstrip s3 else s
                    end
           end
  end.

Definition is_empty (s : string) : bool :=
  match s with EmptyString => true | String _ _ => false end.

(** [s.rstrip()]: a suffix is dropped when it consists of white space
    only. *)
Fixpoint rstrip (s : string) : string :=
  match s with
  | EmptyString => EmptyString
  | String a s1 => if is_empty (lstrip s) then EmptyString else String a (rstrip s1)
  end.

(** [s.strip()]. *)
Definition strip (s : string) : string := rstrip (lstrip s).

(** [s.lower()] on the letters A..Z.  The source compares the result
    with ['from'] only, and no code point outside A..Z lowers to one of
    the letters f, r, o, m, so the comparison is decided by this part of
    [str.lower]. *)
Definition lower_ascii (a : ascii) : ascii :=
  if in_range 65 90 a then ascii_of_nat (nat_of_ascii a + 32) else a.

Fixpoint lower (s : string) : string :=
  match s with
  | EmptyString => EmptyString
  | String a s1 => String (lower_ascii a) (lower s1)
  end.

(** [s.endswith(suffix)]. *)
Definition endswith (s suffix : string) : bool :=
  Nat.leb (String.length suffix) (String.length s)
  && String.eqb
       (substring (String.length s - String.length suffix) (String.length suffix) s)
       suffix.

(** [str(b)] of a [bool], as an f-string renders it. *)
Definition of_bool (b : bool) : string := if b then "True" else "False".

(** [str(x)] of a value that is [None] or a [str]. *)
Definition of_option (o : option string) : string :=
  match o with Some s => s | None => "None" end.

(** Truthiness of a value that is [None] or a [str]: [not x]. *)
Definition falsy (o : option string) : bool :=
  match o with Some s => is_empty s | None => true end.

End PyStr.

(** ** Data model *)

(** The result of a call that may raise: [Raise e] is a Python exception
    whose [str(e)] is [e]. *)
Inductive outcome (A : Type) : Type :=
| Normal (a : A)
| Raise (e : string).
Arguments Normal {A} a.
Arguments Raise {A} e.

(** One entry of [msg['payload']['headers']]. *)
Record header := { h_name : string; h_value : string }.

(** A message as [messages().get(...)] returns it. *)
Record message := { headers : list header }.

(** A persona: the JSON object of one file of [characters/].  A field is
    [None] when the key is missing. *)
Record character := {
  name : option string;
  style : option string;
  randomFacts : list string;
  quirks : list string }.

(** The MIME message handed to [messages().send]. *)
Record mail := {
  mail_to : string;
  mail_subject : string;
  mail_from : string;
  mail_body : string }.

Inductive level := INFO | WARNING | ERROR.

(** Externally visible effects, in the order the program performs them. *)
Inductive event :=
| Log (lvl : level) (text : string)          (* a record of logs/runtime.log *)
| Printed (text : string)                    (* a line of the console *)
| Prompted (persona : character) (base : string)  (* chat.completions.create was called *)
| Sent (m : mail)                            (* messages().send(...) succeeded *)
| Sleep (seconds : nat).                     (* time.sleep(seconds) *)

(** Where in the body of the [for] loop a termination signal arrives. *)
Inductive phase := AtFetch | AtGenerate | AtSend | AtRecord.

(** One element of the list [get_unread_messages] returns, with what the
    collaborators answer while the program processes it. *)
Record incoming := {
  msg_id : string;
  fetched : outcome message;               (* messages().get(id).execute() *)
  pick : nat;                              (* the draw of random.choice *)
  completion : outcome (option string);    (* choices[0].message.content *)
  delivery : outcome unit;                 (* messages().send(...).execute() *)
  clock : string;                          (* datetime.now(timezone.utc).isoformat() *)
  interrupt : option phase }.              (* SIGINT/SIGTERM during this message *)

(** What the environment does during one pass of the [while] loop. *)
Record poll := {
  listing : outcome (string * list incoming);  (* messages().list(...).execute():
                                                  str(results), results.get('messages', []) *)
  listing_signal : bool;                   (* a signal arrives during the query *)
  tick_signal : nat -> bool;               (* a signal arrives during the k-th time.sleep(1) *)
  delay_signal : bool }.                   (* a signal arrives during time.sleep(5) *)

(** What the environment holds when the process starts. *)
Record startup := {
  auth : outcome string;                   (* gmail_authenticate(): the mailbox address *)
  characters_dir : option (list (string * outcome character));
                                           (* os.listdir(CHARACTERS_DIR) with, per entry,
                                              what open + json.load give *)
  reply_json : option (outcome (option string)) }.
                                           (* reply.json: json.load, then data.get('message') *)

(** The program state: the local [replied_senders] of [main], the rows of
    [replied_senders.csv] ([None] when the file does not exist), the global
    [shutdown_requested], and the effects so far. *)
Record state := {
  replied_senders : gset string;
  csv_file : option (list (list string));
  shutdown_requested : bool;
  out : list event }.

Definition set_replied (r : gset string) (st : state) : state :=
  {| replied_senders := r; csv_file := csv_file st;
     shutdown_requested := shutdown_requested st; out := out st |}.
Definition set_csv (f : option (list (list string))) (st : state) : state :=
  {| replied_senders := replied_senders st; csv_file := f;
     shutdown_requested := shutdown_requested st; out := out st |}.
Definition set_shutdown (b : bool) (st : state) : state :=
  {| replied_senders := replied_senders st; csv_file := csv_file st;
     shutdown_requested := b; out := out st |}.
Definition add_out (evs : list event) (st : state) : state :=
  {| replied_senders := replied_senders st; csv_file := csv_file st;
     shutdown_requested := shutdown_requested st; out := out st ++ evs |}.

(** ** The state-and-exception monad *)

Definition M (A : Type) : Type := state -> outcome A * state.

Definition ret {A} (a : A) : M A := fun st => (Normal a, st).
Definition raise {A} (e : string) : M A := fun st => (Raise e, st).
Definition bind {A B} (m : M A) (k : A -> M B) : M B :=
  fun st => match m st with
            | (Normal a, st') => k a st'
            | (Raise e, st') => (Raise e, st')
            end.

(** [try: m except Exception as e: handler e]. *)
Definition try_except {A} (m : M A) (handler : string -> M A) : M A :=
  fun st => match m st with
            | (Normal a, st') => (Normal a, st')
            | (Raise e, st') => handler e st'
            end.

Notation "'let!' x ':=' m 'in' k" := (bind m (fun x => k))
  (at level 10, x name, m at level 100, k at level 200).
Notation "m >> k" := (bind m (fun _ => k))
  (at level 62, right associativity).

Definition get {A} (f : state -> A) : M A := fun st => (Normal (f st), st).
Definition modify (f : state -> state) : M unit := fun st => (Normal tt, f st).
Definition emit (e : event) : M unit := modify (add_out [e]).
(** The answer of a collaborator. *)
Definition call {A} (o : outcome A) : M A := fun st => (o, st).

Definition nl : string := String "010" EmptyString.

(** ** What a run shows from outside *)

(** The mails a run has sent, oldest first. *)
Definition sent_mails (evs : list event) : list mail :=
  omap (fun e => match e with Sent m => Some m | _ => None end) evs.

(** The addresses replied to, one entry per reply. *)
Definition recipients (evs : list event) : list string :=
  mail_to <$> sent_mails evs.

(** The durations of the calls of [time.sleep], oldest first. *)
Definition sleeps (evs : list event) : list nat :=
  omap (fun e => match e with Sleep n => Some n | _ => None end) evs.

(** The personas the text generator was called for. *)
Definition prompts (evs : list event) : list character :=
  omap (fun e => match e with Prompted p _ => Some p | _ => None end) evs.

(** The part of the state the ledger is about: the in-memory set, the
    file, and the mails sent. *)
Definition view (st : state) : gset string * option (list (list string)) * list mail :=
  (replied_senders st, csv_file st, sent_mails (out st)).

(** The value of the first header named [n] (letter case ignored).  The
    program reads the header [From] only; the subject line of a message,
    which a statement below is about, is its header [Subject]. *)
Definition header_value (n : string) (msg : message) : option string :=
  h_value <$> List.find (fun h => String.eqb (PyStr.lower (h_name h)) (PyStr.lower n))
                        (headers msg).

(** The original subject of a message. *)
Definition original_subject (msg : message) : string :=
  default "" (header_value "Subject" msg).

(** The same scripted message with another answer of the text
    generator. *)
Definition with_completion (o : outcome (option string)) (c : incoming) : incoming :=
  {| msg_id := msg_id c; fetched := fetched c; pick := pick c; completion := o;
     delivery := delivery c; clock := clock c; interrupt := interrupt c |}.

(** The same scripted message with no signal arriving. *)
Definition uninterrupted (c : incoming) : incoming :=
  {| msg_id := msg_id c; fetched := fetched c; pick := pick c;
     completion := completion c; delivery := delivery c; clock := clock c;
     interrupt := None |}.

(** ** Sample inputs

    Concrete scripts on which the statements below are evaluated. *)

Module Sample.

(** [parseaddr] on a header value that is a bare address. *)
Definition parseaddr (v : string) : string * string := ("", v).

Definition spock : character :=
  {| name := Some "Spock"; style := Some "logical";
     randomFacts := ["Science officer"]; quirks := ["Raises one eyebrow"] |}.

Definition away : string := "I am away until Monday.".

(** A message from [address] with the subject line [subject]. *)
Definition letter (address subject : string) : message :=
  {| headers := [ {| h_name := "Subject"; h_value := subject |};
                  {| h_name := "From"; h_value := address |} ] |}.

(** An unread message from [address], with the answers of the text
    generator and of the send call. *)
Definition unread (address : string) (answer : outcome (option string))
    (sending : outcome unit) : incoming :=
  {| msg_id := "18c2f0a1"; fetched := Normal (letter address "Hello");
     pick := 0; completion := answer; delivery := sending;
     clock := "2024-05-01T09:30:00+00:00"; interrupt := None |}.

(** The same scripted message with a signal arriving at [p]. *)
Definition interrupted (p : phase) (c : incoming) : incoming :=
  {| msg_id := msg_id c; fetched := fetched c; pick := pick c;
     completion := completion c; delivery := delivery c; clock := clock c;
     interrupt := Some p |}.

(** A pass in which the query lists [messages] and no signal arrives. *)
Definition pass (messages : list incoming) : poll :=
  {| listing := Normal ("{'messages': [...]}", messages);
     listing_signal := false; tick_signal := fun _ => false;
     delay_signal := false |}.

(** A pass in which the query fails. *)
Definition failed_query : poll :=
  {| listing := Raise "HttpError 503"; listing_signal := false;
     tick_signal := fun _ => false; delay_signal := false |}.

Definition boot : startup :=
  {| auth := Normal "me@example.org";
     characters_dir := Some [("spock.json", Normal spock)];
     reply_json := Some (Normal (Some away)) |}.

(** A directory with a malformed file between two good ones. *)
Definition boot_malformed : startup :=
  {| auth := Normal "me@example.org";
     characters_dir := Some [("spock.json", Normal spock);
                             ("broken.json", Raise "Expecting value: line 1 column 1 (char 0)");
                             ("notes.txt", Raise "not read");
                             ("data.json", Normal spock)];
     reply_json := Some (Normal (Some away)) |}.

(** The state in which the loop starts when no ledger file exists. *)
Definition idle : state :=
  {| replied_senders := ∅; csv_file := None; shutdown_requested := false; out := [] |}.


(** The state of a loop that has replied to [a@x.org]. *)
Definition replied_a : state :=
  {| replied_senders := {["a@x.org"]};
     csv_file := Some [ ["sender_email"; "timestamp"; "character_used"; "fallback_used"];
                        ["a@x.org"; "2024-05-01T09:30:00+00:00"; "Spock"; "No"] ];
     shutdown_requested := false; out := [] |}.

(** The state of a loop whose shutdown has been requested. *)
Definition stopping : state :=
  {| replied_senders := ∅; csv_file := None; shutdown_requested := true; out := [] |}.

(** A signal during the third one-second tick of the sleep. *)
Definition third_tick (k : nat) : bool := Nat.eqb k 2.

End Sample.

(** ** Further sample inputs *)

Module Scenario.

(** A pass that lists a message of the mailbox to itself, then one of
    another sender. *)
Definition own_and_other : list poll :=
  [ Sample.pass [ Sample.unread "me@example.org" (Normal (Some "Hi")) (Normal tt);
                  Sample.unread "a@x.org" (Normal (Some "Hi")) (Normal tt) ] ].

(** The state of a loop that starts on a ledger file that exists and is
    empty. *)
Definition empty_file : state :=
  {| replied_senders := ∅; csv_file := Some []; shutdown_requested := false;
     out := [] |}.

(** A message with two From headers, the first one in capitals. *)
Definition two_froms : message :=
  {| headers := [ {| h_name := "Subject"; h_value := "Hello" |};
                  {| h_name := "FROM"; h_value := "a@x.org" |};
                  {| h_name := "From"; h_value := "b@x.org" |} ] |}.

(** An unread message without a From header. *)
Definition anonymous : incoming :=
  {| msg_id := "18c2f0a2";
     fetched := Normal {| headers := [ {| h_name := "Subject"; h_value := "Hello" |} ] |};
     pick := 0; completion := Normal (Some "Hi"); delivery := Normal tt;
     clock := "2024-05-01T09:30:00+00:00"; interrupt := None |}.

(** An unread message whose fetch fails. *)
Definition unfetched : incoming :=
  {| msg_id := "18c2f0a3"; fetched := Raise "HttpError 404";
     pick := 0; completion := Normal (Some "Hi"); delivery := Normal tt;
     clock := "2024-05-01T09:30:00+00:00"; interrupt := None |}.

(** Three passes that list the same unread message. *)
Definition same_message_thrice : list poll :=
  [ Sample.pass [ Sample.unread "a@x.org" (Normal (Some "Hi")) (Normal tt) ];
    Sample.pass [ Sample.unread "a@x.org" (Normal (Some "Hi")) (Normal tt) ];
    Sample.pass [ Sample.unread "a@x.org" (Normal (Some "Hi")) (Normal tt) ] ].

(** Two record operations. *)
Definition two_records : list (string * option string * bool * string) :=
  [ ("a@x.org", Some "Spock", false, "2024-05-01T09:30:00+00:00");
    ("b@x.org", None, true, "2024-05-01T09:31:00+00:00") ].

(** A pass that lists nothing, with a signal during the query and another
    during the third tick of the sleep. *)
Definition twice_signalled : poll :=
  {| listing := Normal ("{}", []); listing_signal := true;
     tick_signal := Sample.third_tick; delay_signal := true |}.

(** A pass that lists one message, with a signal during the third tick of
    the sleep. *)
Definition signalled_in_sleep : poll :=
  {| listing := Normal ("{'messages': [...]}",
                        [ Sample.unread "a@x.org" (Normal (Some "Hi")) (Normal tt) ]);
     listing_signal := false; tick_signal := Sample.third_tick;
     delay_signal := false |}.

(** A pass of three messages, with a signal while the mail of the second
    is being sent. *)
Definition signalled_in_send : poll :=
  Sample.pass [ Sample.unread "b@x.org" (Normal (Some "Hi")) (Normal tt);
                Sample.interrupted AtSend
                  (Sample.unread "a@x.org" (Normal (Some "Hi")) (Normal tt));
                Sample.unread "c@x.org" (Normal (Some "Hi")) (Normal tt) ].

End Scenario.

(** ** The program *)

Section Bot.

(** Module-level configuration of [main.py], read from the process
    environment when the module is loaded. *)
Variable REPLY_ONCE : bool.
Variable CHECK_INTERVAL : Z.

(** [email.utils.parseaddr], a function of the Python standard library:
    the pair (real name, address) of a header value. *)
Variable parseaddr : string -> string * string.

(** [graceful_shutdown]: the handler of SIGINT and SIGTERM. *)
Definition graceful_shutdown : M unit :=
  let! requested := get shutdown_requested in
  if negb requested then
    emit (Printed (nl +:+ "Stopping bot gracefully... please wait up to 30s for cleanup.")) >>
    emit (Log INFO "Graceful shutdown requested.") >>
    modify (set_shutdown true)
  else ret tt.

(** Asynchronous delivery of a signal: the handler runs when one
    arrives. *)
Definition signal (arrives : bool) : M unit :=
  if arrives then graceful_shutdown else ret tt.

(** Equality of two points of the loop body. *)
Definition phase_eqb (p q : phase) : bool :=
  match p, q with
  | AtFetch, AtFetch | AtGenerate, AtGenerate
  | AtSend, AtSend | AtRecord, AtRecord => true
  | _, _ => false
  end.

(** The signal scripted for the message [c], when it arrives at [p]. *)
Definition signal_at (p : phase) (c : incoming) : M unit :=
  signal (match interrupt c with Some q => phase_eqb p q | None => false end).

(** [get_unread_messages]. *)
Definition get_unread_messages (p : poll) : M (list incoming) :=
  signal (listing_signal p) >>
  let! results := call (listing p) in
  emit (Log INFO ("Checked for unread emails, found: " +:+ fst results)) >>
  ret (snd results).

(** [get_sender]: the address of the first header named From, in any
    letter case; [None] when there is none. *)
Fixpoint get_sender_of (hs : list header) : option string :=
  match hs with
  | [] => None
  | h :: rest =>
      if String.eqb (PyStr.lower (h_name h)) "from"
      then Some (snd (parseaddr (h_value h)))
      else get_sender_of rest
  end.

Definition get_sender (msg : message) : option string :=
  get_sender_of (headers msg).

(** [row[0] for row in csv.reader(f) if row].  The file is held as the
    rows [csv.reader] yields, which are the rows [csv.writer] was given. *)
Definition first_fields (rows : list (list string)) : list string :=
  omap head rows.

(** The senders a ledger file holds: every record after the first. *)
Definition ledger_senders (f : option (list (list string))) : list string :=
  match f with
  | None => []
  | Some rows => first_fields (tail rows)
  end.

(** [load_replied_senders]. *)
Definition load_replied_senders : M (gset string) :=
  let! f := get csv_file in
  ret (list_to_set (ledger_senders f)).

(** The header row. *)
Definition csv_header : list string :=
  ["sender_email"; "timestamp"; "character_used"; "fallback_used"].

(** A [None] field is written as the empty string by [csv.writer]. *)
Definition csv_field (o : option string) : string := default "" o.

(** ["Yes" if used_fallback else "No"]. *)
Definition yes_no (b : bool) : string := if b then "Yes" else "No".

(** [save_replied_sender]; [now] is the clock reading. *)
Definition save_replied_sender (sender : string) (character_name : option string)
    (used_fallback : bool) (now : string) : M unit :=
  let! f := get csv_file in
  let rows := match f with
              | None => [csv_header]      (* is_new_file *)
              | Some rows => rows
              end in
  modify (set_csv (Some (rows ++ [[sender; now; csv_field character_name;
                                    yes_no used_fallback]]))).

(** [load_characters]: the loop over [os.listdir]. *)
Fixpoint read_characters (entries : list (string * outcome character))
    (characters : list character) : M (list character) :=
  match entries with
  | [] => ret characters
  | (file, content) :: rest =>
      if PyStr.endswith file ".json" then
        let! c := call content in
        read_characters rest (characters ++ [c])
      else read_characters rest characters
  end.

Definition load_characters (dir : option (list (string * outcome character)))
  : M (list character) :=
  match dir with
  | None => ret []
  | Some entries => read_characters entries []
  end.

(** [load_fallback_message]. *)
Definition load_fallback_message (file : option (outcome (option string)))
  : M string :=
  match file with
  | None => ret "Thank you for reaching out! I'll get back to you soon."
  | Some content =>
      let! data := call content in
      ret (default "Thank you for your email!" data)
  end.

(** [generate_ai_reply]: the completion call, [.strip()] of its content,
    and the handler that turns every exception into [None]. *)
Definition generate_ai_reply (c : incoming) : M (option string) :=
  try_except
    (signal_at AtGenerate c >>
     let! content := call (completion c) in
     match content with
     | Some text => ret (Some (PyStr.strip text))
     | None => raise "'NoneType' object has no attribute 'strip'"
     end)
    (fun e => emit (Log ERROR ("Ollama API error: " +:+ e)) >> ret None).

(** The signature line [send_reply] appends. *)
Definition signature (persona : character) : string :=
  nl +:+ nl +:+ "-" +:+ default "Automated System" (name persona) +:+ ".".

(** [send_reply]. *)
Definition send_reply (c : incoming) (to_email subject message_body : string)
    (persona : character) : M unit :=
  let message_body := message_body +:+ signature persona in
  let reply := {| mail_to := to_email;
                  mail_subject := "Re: " +:+ subject +:+ " - OOO Automated Reply";
                  mail_from := "secure.test@debagnik.in";
                  mail_body := message_body |} in
  signal_at AtSend c >>
  call (delivery c) >>
  emit (Sent reply).

(** [random.choice(characters)]. *)
Definition choice (characters : list character) (draw : nat) : M character :=
  match characters !! (draw mod length characters) with
  | Some persona => ret persona
  | None => raise "Cannot choose from an empty sequence"
  end.

Definition check_mark : string := String "226" (String "156" (String "148" EmptyString)).

(** The test of the [if ... : continue] of the loop body:
    [not sender or (REPLY_ONCE and sender in replied_senders)
     or sender == my_email]. *)
Definition skip (my_email : string) (replied : gset string)
    (sender : option string) : bool :=
  match sender with
  | None => true                                   (* not None *)
  | Some s => PyStr.is_empty s
              || (REPLY_ONCE && bool_decide (s ∈ replied))
              || String.eqb s my_email
  end.

(** The body of the [for msg_meta in messages] loop. *)
Definition reply_to (my_email : string) (characters : list character)
    (fallback_message : string) (c : incoming) : M unit :=
  signal_at AtFetch c >>
  let! msg := call (fetched c) in
  let sender := get_sender msg in
  let! replied := get replied_senders in
  if skip my_email replied sender
  then ret tt                                                   (* continue *)
  else
    let sender := PyStr.of_option sender in          (* a [str]: [not sender] is false *)
    let! persona := choice characters (pick c) in
    emit (Prompted persona fallback_message) >>
    let! ai_reply := generate_ai_reply c in
    let used_fallback := PyStr.falsy ai_reply in
    let ai_reply := if used_fallback then fallback_message
                    else PyStr.of_option ai_reply in
    send_reply c sender "Automated Reply" ai_reply persona >>
    modify (fun st => set_replied ({[sender]} ∪ replied_senders st) st) >>
    signal_at AtRecord c >>
    save_replied_sender sender (name persona) used_fallback (clock c) >>
    emit (Log INFO ("Replied to " +:+ sender +:+ " with persona "
                    +:+ PyStr.of_option (name persona) +:+ ", fallback: "
                    +:+ PyStr.of_bool used_fallback)) >>
    emit (Printed (check_mark +:+ " Replied to " +:+ sender +:+ " ("
                 +:+ PyStr.of_option (name persona) +:+ ")"
                 +:+ (if used_fallback then " [fallback]" else ""))).

(** [for msg_meta in messages: ...]: an exception leaves the loop. *)
Fixpoint for_messages (body : incoming -> M unit) (messages : list incoming)
  : M unit :=
  match messages with
  | [] => ret tt
  | c :: rest => body c >> for_messages body rest
  end.

(** [time.sleep(seconds)], during which a signal may arrive. *)
Definition time_sleep (seconds : nat) (arrives : bool) : M unit :=
  emit (Sleep seconds) >> signal arrives.

(** [range(n)]. *)
Definition range (n : Z) : list nat := seq 0 (Z.to_nat n).

(** The responsive sleep: [for _ in range(CHECK_INTERVAL)] with its
    [break]. *)
Fixpoint sleep_ticks (ticks : list nat) (arrives : nat -> bool) : M unit :=
  match ticks with
  | [] => ret tt
  | k :: rest =>
      let! requested := get shutdown_requested in
      if requested then ret tt                                  (* break *)
      else time_sleep 1 (arrives k) >> sleep_ticks rest arrives
  end.

(** The body of the [while] loop: the [try] block and its handler for
    [Exception].  The handler for [KeyboardInterrupt] has nothing to
    catch: SIGINT is handled by [graceful_shutdown], which raises
    nothing. *)
Definition iteration (my_email : string) (characters : list character)
    (fallback_message : string) (p : poll) : M unit :=
  try_except
    (let! messages := get_unread_messages p in
     for_messages (reply_to my_email characters fallback_message) messages >>
     sleep_ticks (range CHECK_INTERVAL) (tick_signal p))
    (fun e => emit (Log ERROR ("Runtime error: " +:+ e)) >>
              time_sleep 5 (delay_signal p)).

(** How an observed run of the loop ends: the flag was seen at the head
    of the loop, or the observation ends while the loop is still
    running. *)
Inductive status := Stopped | Running.

(** [while not shutdown_requested: ...] over the passes the script
    describes. *)
Fixpoint main_loop (my_email : string) (characters : list character)
    (fallback_message : string) (script : list poll) : M status :=
  let! requested := get shutdown_requested in
  if requested then ret Stopped
  else match script with
       | [] => ret Running
       | p :: rest =>
           iteration my_email characters fallback_message p >>
           main_loop my_email characters fallback_message rest
       end.

Definition default_character : character :=
  {| name := Some "Default"; style := Some "friendly";
     randomFacts := []; quirks := [] |}.

(** [main]. *)
Definition main (boot : startup) (script : list poll) : M status :=
  emit (Log INFO "Starting Gmail Auto Reply Bot (Windows)") >>
  emit (Printed ("Gmail Auto Reply Bot started. Press Ctrl+C to stop. "
               +:+ "(Reply once per sender: " +:+ PyStr.of_bool REPLY_ONCE +:+ ")")) >>
  let! my_email := call (auth boot) in
  let! replied := load_replied_senders in
  modify (set_replied replied) >>
  let! characters := load_characters (characters_dir boot) in
  let! fallback_message := load_fallback_message (reply_json boot) in
  let! characters :=
    match characters with
    | [] => emit (Log WARNING
                    "No character profiles found. Using default reply personality.") >>
            ret [default_character]
    | _ => ret characters
    end in
  let! st := main_loop my_email characters fallback_message script in
  match st with
  | Stopped => emit (Log INFO "Bot stopped gracefully.") >>
               emit (Printed "Bot stopped gracefully.") >>
               ret Stopped
  | Running => ret Running
  end.

(** A process: [main] started on the ledger file [f], with the effects
    [evs] of earlier processes kept for the record. *)
Definition fresh_process (f : option (list (list string))) (evs : list event) : state :=
  {| replied_senders := ∅; csv_file := f; shutdown_requested := false; out := evs |}.

Definition run_process (boot : startup) (script : list poll)
    (f : option (list (list string))) (evs : list event) : outcome status * state :=
  main boot script (fresh_process f evs).


(** A sequence of record operations, as successive successful replies
    perform them: (sender, persona name, fallback flag, clock). *)
Fixpoint record_all (records : list (string * option string * bool * string))
  : M unit :=
  match records with
  | [] => ret tt
  | (sender, character_name, used_fallback, now) :: rest =>
      save_replied_sender sender character_name used_fallback now >>
      record_all rest
  end.

(** ** Notions the statements and proofs use *)

(** The rows [save_replied_sender] appends to: those of the file, or the
    header row it writes first when the file does not exist. *)
Definition rows_of (f : option (list (list string))) : list (list string) :=
  match f with None => [csv_header] | Some rows => rows end.

(** What [generate_ai_reply] returns for an answer of the completion
    call. *)
Definition generated (answer : outcome (option string)) : option string :=
  match answer with
  | Normal (Some text) => Some (PyStr.strip text)
  | _ => None
  end.

(** The reply the loop body sends for an accepted message, and the row
    it records. *)
Definition reply_body (fb : string) (c : incoming) : string :=
  if PyStr.falsy (generated (completion c)) then fb
  else PyStr.of_option (generated (completion c)).

Definition reply_mail (fb : string) (c : incoming) (sender : string)
    (persona : character) : mail :=
  {| mail_to := sender;
     mail_subject := "Re: Automated Reply - OOO Automated Reply";
     mail_from := "secure.test@debagnik.in";
     mail_body := reply_body fb c +:+ signature persona |}.

Definition reply_row (c : incoming) (sender : string) (persona : character)
  : list string :=
  [sender; clock c; csv_field (name persona);
   yes_no (PyStr.falsy (generated (completion c)))].

(** The events that are a sent mail. *)
Definition is_sent (e : event) : bool :=
  match e with Sent _ => true | _ => false end.

(** An action that leaves the ledger view as it is. *)
Definition quiet {A} (m : M A) : Prop := forall st, view (snd (m st)) = view st.

(** What one pass of the loop body can do to the view: nothing, or one
    reply, sent to a sender the reply-once test let through and recorded
    in the in-memory set and the file. *)
Definition reply_step (v v' : gset string * option (list (list string)) * list mail)
  : Prop :=
  v' = v
  \/ exists sender rest m,
      (REPLY_ONCE = true -> sender ∉ v.1.1)
      /\ mail_to m = sender
      /\ mail_subject m = "Re: Automated Reply - OOO Automated Reply"
      /\ v' = ({[sender]} ∪ v.1.1, Some (rows_of v.1.2 ++ [sender :: rest]), v.2 ++ [m]).

(** A property of the view that replies keep. *)
Definition stable (I : gset string * option (list (list string)) * list mail -> Prop)
  : Prop :=
  forall v v', I v -> reply_step v v' -> I v'.

(** An action that keeps a property of the view, however it ends. *)
Definition keeps (I : gset string * option (list (list string)) * list mail -> Prop)
    {A} (m : M A) : Prop :=
  forall st, I (view st) -> I (view (snd (m st))).



(** The personas of the entries of a directory listing that are named
    [*.json] and load. *)
Definition json_personas (entries : list (string * outcome character))
  : list character :=
  omap (fun d => if PyStr.endswith d.1 ".json"
                 then match d.2 with Normal c => Some c | Raise _ => None end
                 else None) entries.

(** An entry that [load_characters] gets past: not named [*.json], or
    loading. *)
Definition loads (d : string * outcome character) : Prop :=
  PyStr.endswith d.1 ".json" = true -> exists c, d.2 = Normal c.

(** The senders of a sequence of record operations. *)
Definition recorded (records : list (string * option string * bool * string))
  : list string :=
  (fun r => r.1.1.1) <$> records.

(** ** Notions for the properties of the rest of the program *)

(** The personas [main] draws from: those [load_characters] returns, or
    the default one when it returns none. *)
Definition personas (dir : option (list (string * outcome character)))
  : list character :=
  match dir with
  | None => [default_character]
  | Some entries =>
      match json_personas entries with
      | [] => [default_character]
      | p :: ps => p :: ps
      end
  end.

(** The message [load_fallback_message] returns when [reply.json] is
    absent or loads. *)
Definition fallback_of (file : option (outcome (option string))) : string :=
  match file with
  | None => "Thank you for reaching out! I'll get back to you soon."
  | Some (Normal data) => default "Thank you for your email!" data
  | Some (Raise _) => ""
  end.

(** The sender the loop body resolves for a scripted message, and the
    persona it draws. *)
Definition sender_of (c : incoming) : string :=
  match fetched c with
  | Normal msg => PyStr.of_option (get_sender msg)
  | Raise _ => ""
  end.

Definition drawn (characters : list character) (c : incoming) : character :=
  default default_character (characters !! (pick c mod length characters)).

(** A message the loop body can answer whatever the ledger holds: it is
    fetched, its sender is resolved, not empty and not the mailbox
    itself, and the send succeeds. *)
Definition answerable (my_email : string) (c : incoming) : Prop :=
  exists msg s,
    fetched c = Normal msg /\ get_sender msg = Some s
    /\ s <> "" /\ s <> my_email /\ delivery c = Normal tt.

(** The ledger file after [rows] have been appended by
    [save_replied_sender]. *)
Definition extended (f : option (list (list string))) (rows : list (list string))
  : option (list (list string)) :=
  match rows with
  | [] => f
  | _ :: _ => Some (rows_of f ++ rows)
  end.

(** A pass during which no signal arrives. *)
Definition undisturbed (p : poll) : Prop :=
  listing_signal p = false
  /\ (forall k, tick_signal p k = false)
  /\ delay_signal p = false
  /\ match listing p with
     | Normal results => Forall (fun c => interrupt c = None) results.2
     | Raise _ => True
     end.

(** The messages a pass lists. *)
Definition listed (p : poll) : list incoming :=
  match listing p with
  | Normal results => results.2
  | Raise _ => []
  end.

(** What one pass of the loop body of a given process can do to the
    view: nothing, or one reply to a sender the test of the loop let
    through, signed by one of the personas, and recorded. *)
Definition reply_step_by (my_email : string) (characters : list character)
    (fb : string) (v v' : gset string * option (list (list string)) * list mail)
  : Prop :=
  v' = v
  \/ exists c sender persona,
      skip my_email v.1.1 (Some sender) = false
      /\ persona ∈ characters
      /\ v' = ({[sender]} ∪ v.1.1,
               Some (rows_of v.1.2 ++ [reply_row c sender persona]),
               v.2 ++ [reply_mail fb c sender persona]).

(** A property of the view that the replies of a given process keep. *)
Definition stable_by (my_email : string) (characters : list character)
    (fb : string)
    (I : gset string * option (list (list string)) * list mail -> Prop) : Prop :=
  forall v v', I v -> reply_step_by my_email characters fb v v' -> I v'.

(** The rows of a ledger file, none when it does not exist. *)
Definition file_rows (f : option (list (list string))) : list (list string) :=
  match f with None => [] | Some rows => rows end.

(** The log record [graceful_shutdown] writes. *)
Definition is_notice (e : event) : bool :=
  match e with
  | Log INFO text => String.eqb text "Graceful shutdown requested."
  | _ => false
  end.

(** The number of shutdown notices in a log. *)
Definition notices (evs : list event) : nat :=
  length (List.filter is_notice evs).

(** The row [save_replied_sender] writes for a record operation
    (sender, persona name, fallback flag, clock). *)
Definition record_row (r : string * option string * bool * string) : list string :=
  [r.1.1.1; r.2; csv_field r.1.1.2; yes_no r.1.2].

(** A header that is not a From header. *)
Definition not_from (h : header) : Prop := PyStr.lower (h_name h) <> "from".

(** An action that keeps a property of the whole state, however it
    ends. *)
Definition holds (J : state -> Prop) {A} (m : M A) : Prop :=
  forall st, J st -> J (snd (m st)).

(** The log holds the shutdown notice once when the shutdown is
    requested, and not at all while it is not. *)
Definition noticed (st : state) : Prop :=
  notices (out st) = if shutdown_requested st then 1%nat else 0%nat.

(** ** Equations of the monad *)

Lemma bind_get {A B} (f : state -> A) (k : A -> M B) st :
  bind (get f) k st = k (f st) st.
Proof. reflexivity. Qed.

Lemma bind_modify {B} (f : state -> state) (k : unit -> M B) st :
  bind (modify f) k st = k tt (f st).
Proof. reflexivity. Qed.

Lemma bind_emit {B} (e : event) (k : unit -> M B) st :
  bind (emit e) k st = k tt (add_out [e] st).
Proof. reflexivity. Qed.

Lemma bind_ret {A B} (a : A) (k : A -> M B) st : bind (ret a) k st = k a st.
Proof. reflexivity. Qed.

Lemma bind_call_normal {A B} (a : A) (k : A -> M B) st :
  bind (call (Normal a)) k st = k a st.
Proof. reflexivity. Qed.

Lemma bind_call_raise {A B} (e : string) (k : A -> M B) st :
  bind (call (Raise e)) k st = (Raise e, st).
Proof. reflexivity. Qed.

Lemma bind_normal {A B} (m : M A) (k : A -> M B) st a st' :
  m st = (Normal a, st') -> bind m k st = k a st'.
Proof. intros H. unfold bind. now rewrite H. Qed.

Lemma bind_raise {A B} (m : M A) (k : A -> M B) st e st' :
  m st = (Raise e, st') -> bind m k st = (Raise e, st').
Proof. intros H. unfold bind. now rewrite H. Qed.

(** ** Observations of a trace *)

Lemma sent_mails_app evs1 evs2 :
  sent_mails (evs1 ++ evs2) = sent_mails evs1 ++ sent_mails evs2.
Proof. unfold sent_mails. apply omap_app. Qed.

Lemma recipients_app evs1 evs2 :
  recipients (evs1 ++ evs2) = recipients evs1 ++ recipients evs2.
Proof. unfold recipients. now rewrite sent_mails_app, fmap_app. Qed.

Lemma sleeps_app evs1 evs2 : sleeps (evs1 ++ evs2) = sleeps evs1 ++ sleeps evs2.
Proof. unfold sleeps. apply omap_app. Qed.

Lemma prompts_app evs1 evs2 : prompts (evs1 ++ evs2) = prompts evs1 ++ prompts evs2.
Proof. unfold prompts. apply omap_app. Qed.

(** ** Actions that leave the ledger view alone *)

Lemma view_add_out evs st :
  forallb (fun e => negb (is_sent e)) evs = true ->
  view (add_out evs st) = view st.
Proof.
  intros H. unfold view, add_out; simpl. rewrite sent_mails_app.
  replace (sent_mails evs) with (@nil mail); [now rewrite app_nil_r|].
  induction evs as [|e evs IH]; [reflexivity|].
  simpl in H. apply andb_prop in H as [He Hevs].
  destruct e; simpl in *; try discriminate; now apply IH.
Qed.

Lemma quiet_ret {A} (a : A) : quiet (ret a).
Proof. now intros st. Qed.

Lemma quiet_raise {A} e : quiet (@raise A e).
Proof. now intros st. Qed.

Lemma quiet_call {A} (o : outcome A) : quiet (call o).
Proof. now intros st. Qed.

Lemma quiet_get {A} (f : state -> A) : quiet (get f).
Proof. now intros st. Qed.

Lemma quiet_emit e : is_sent e = false -> quiet (emit e).
Proof.
  intros H st. unfold emit, modify; simpl. apply view_add_out.
  simpl. now rewrite H.
Qed.

Lemma quiet_set_shutdown b : quiet (modify (set_shutdown b)).
Proof. now intros st. Qed.

Lemma quiet_bind {A B} (m : M A) (k : A -> M B) :
  quiet m -> (forall a, quiet (k a)) -> quiet (bind m k).
Proof.
  intros Hm Hk st. unfold bind. specialize (Hm st).
  destruct (m st) as [[a|e] st1]; simpl in *; [|assumption].
  now rewrite Hk.
Qed.

Lemma quiet_try {A} (m : M A) (h : string -> M A) :
  quiet m -> (forall e, quiet (h e)) -> quiet (try_except m h).
Proof.
  intros Hm Hh st. unfold try_except. specialize (Hm st).
  destruct (m st) as [[a|e] st1]; simpl in *; [assumption|].
  now rewrite Hh.
Qed.

Ltac quiet_step :=
  first [ apply quiet_ret | apply quiet_raise | apply quiet_call | apply quiet_get
        | apply quiet_set_shutdown
        | apply quiet_emit; reflexivity
        | apply quiet_bind; [|intros ?]
        | apply quiet_try; [|intros ?] ].

Lemma quiet_graceful_shutdown : quiet graceful_shutdown.
Proof.
  unfold graceful_shutdown. apply quiet_bind; [quiet_step|].
  intros []; simpl; repeat quiet_step.
Qed.

Lemma quiet_signal b : quiet (signal b).
Proof. destruct b; simpl; [apply quiet_graceful_shutdown | apply quiet_ret]. Qed.

Lemma quiet_signal_at p c : quiet (signal_at p c).
Proof. apply quiet_signal. Qed.

Lemma quiet_get_unread_messages p : quiet (get_unread_messages p).
Proof.
  unfold get_unread_messages.
  apply quiet_bind; [apply quiet_signal|intros ?]. repeat quiet_step.
Qed.

Lemma quiet_generate_ai_reply c : quiet (generate_ai_reply c).
Proof.
  unfold generate_ai_reply.
  apply quiet_try; [|intros ?; repeat quiet_step].
  apply quiet_bind; [apply quiet_signal_at|intros ?].
  apply quiet_bind; [quiet_step|intros [text|]]; quiet_step.
Qed.

Lemma quiet_choice characters draw : quiet (choice characters draw).
Proof. unfold choice. destruct (_ !! _); quiet_step. Qed.

Lemma quiet_time_sleep n b : quiet (time_sleep n b).
Proof.
  unfold time_sleep. apply quiet_bind; [quiet_step|intros ?]. apply quiet_signal.
Qed.

Lemma quiet_sleep_ticks ticks arrives : quiet (sleep_ticks ticks arrives).
Proof.
  induction ticks as [|k rest IH]; simpl; [apply quiet_ret|].
  apply quiet_bind; [quiet_step|intros []]; [quiet_step|].
  apply quiet_bind; [apply quiet_time_sleep|intros ?; apply IH].
Qed.

Lemma quiet_load_characters dir : quiet (load_characters dir).
Proof.
  destruct dir as [entries|]; simpl; [|apply quiet_ret].
  generalize (@nil character).
  induction entries as [|[file content] rest IH]; intros acc; simpl; [apply quiet_ret|].
  destruct (PyStr.endswith file ".json"); [|apply IH].
  apply quiet_bind; [quiet_step|intros ?; apply IH].
Qed.

Lemma quiet_load_fallback_message file : quiet (load_fallback_message file).
Proof. destruct file; simpl; repeat quiet_step. Qed.

(** ** Signals never fail and never clear the flag *)

Lemma signal_normal b st : fst (signal b st) = Normal tt.
Proof.
  destruct b; [|reflexivity]. unfold signal, graceful_shutdown.
  rewrite bind_get. now destruct (shutdown_requested st).
Qed.

Lemma signal_sets b st :
  shutdown_requested (snd (signal b st)) = b || shutdown_requested st.
Proof.
  destruct b; [|reflexivity]. unfold signal, graceful_shutdown.
  rewrite bind_get. now destruct (shutdown_requested st) eqn:E.
Qed.

Lemma signal_sleeps b st : sleeps (out (snd (signal b st))) = sleeps (out st).
Proof.
  destruct b; [|reflexivity]. unfold signal, graceful_shutdown.
  rewrite bind_get. destruct (shutdown_requested st); [reflexivity|].
  simpl. rewrite <- app_assoc, sleeps_app. simpl. now rewrite app_nil_r.
Qed.

Lemma bind_fst {A B} (m : M A) (k : A -> M B) st a :
  fst (m st) = Normal a -> bind m k st = k a (snd (m st)).
Proof. unfold bind. destruct (m st) as [[a'|e] st']; simpl; congruence. Qed.

Lemma bind_signal {B} b (k : unit -> M B) st :
  bind (signal b) k st = k tt (snd (signal b st)).
Proof. apply bind_fst, signal_normal. Qed.

Lemma bind_signal_at {B} p c (k : unit -> M B) st :
  bind (signal_at p c) k st = k tt (snd (signal_at p c st)).
Proof. apply bind_signal. Qed.

Lemma view_fields st1 st2 :
  view st1 = view st2 ->
  replied_senders st1 = replied_senders st2
  /\ csv_file st1 = csv_file st2
  /\ sent_mails (out st1) = sent_mails (out st2).
Proof. unfold view. intros H. now inversion H. Qed.

(** ** The text generator *)

Lemma generate_ai_reply_result c st :
  fst (generate_ai_reply c st) = Normal (generated (completion c)).
Proof.
  unfold generate_ai_reply, try_except. rewrite bind_signal_at.
  destruct (completion c) as [[text|]|e]; reflexivity.
Qed.

Lemma generate_ai_reply_flag c st :
  shutdown_requested (snd (generate_ai_reply c st))
  = shutdown_requested (snd (signal_at AtGenerate c st)).
Proof.
  unfold generate_ai_reply, try_except. rewrite bind_signal_at.
  destruct (completion c) as [[text|]|e]; reflexivity.
Qed.

(** ** The loop body, case by case *)

Lemma send_reply_normal c to_email subject body persona st u :
  delivery c = Normal u ->
  send_reply c to_email subject body persona st
  = (Normal tt,
     add_out [Sent {| mail_to := to_email;
                      mail_subject := "Re: " +:+ subject +:+ " - OOO Automated Reply";
                      mail_from := "secure.test@debagnik.in";
                      mail_body := body +:+ signature persona |}]
             (snd (signal_at AtSend c st))).
Proof.
  intros H. unfold send_reply. rewrite bind_signal_at, H. reflexivity.
Qed.

Lemma send_reply_raise c to_email subject body persona st e :
  delivery c = Raise e ->
  send_reply c to_email subject body persona st
  = (Raise e, snd (signal_at AtSend c st)).
Proof.
  intros H. unfold send_reply. rewrite bind_signal_at, H. reflexivity.
Qed.

Lemma reply_to_fetch_error my_email characters fb c st e :
  fetched c = Raise e ->
  reply_to my_email characters fb c st = (Raise e, snd (signal_at AtFetch c st)).
Proof. intros H. unfold reply_to. rewrite bind_signal_at, H. reflexivity. Qed.

Lemma reply_to_skipped my_email characters fb c st msg :
  fetched c = Normal msg ->
  skip my_email (replied_senders st) (get_sender msg) = true ->
  reply_to my_email characters fb c st = signal_at AtFetch c st.
Proof.
  intros Hf Hs. unfold reply_to. rewrite bind_signal_at, Hf, bind_call_normal, bind_get.
  destruct (view_fields _ _ (quiet_signal_at AtFetch c st)) as (-> & _ & _).
  rewrite Hs. unfold ret.
  pose proof (signal_normal (match interrupt c with
                             | Some q => phase_eqb AtFetch q | None => false end) st) as Hn.
  unfold signal_at. destruct (signal _ st) as [r st']; simpl in *. now subst r.
Qed.

Lemma reply_to_no_persona my_email characters fb c st msg :
  fetched c = Normal msg ->
  skip my_email (replied_senders st) (get_sender msg) = false ->
  characters !! (pick c mod length characters) = None ->
  reply_to my_email characters fb c st
  = (Raise "Cannot choose from an empty sequence", snd (signal_at AtFetch c st)).
Proof.
  intros Hf Hs Hc. unfold reply_to. rewrite bind_signal_at, Hf, bind_call_normal, bind_get.
  destruct (view_fields _ _ (quiet_signal_at AtFetch c st)) as (-> & _ & _).
  rewrite Hs. unfold choice. rewrite Hc. reflexivity.
Qed.

Lemma save_replied_sender_run sender character_name used_fallback now st :
  save_replied_sender sender character_name used_fallback now st
  = (Normal tt,
     set_csv (Some (rows_of (csv_file st)
                    ++ [[sender; now; csv_field character_name; yes_no used_fallback]]))
             st).
Proof. unfold save_replied_sender. rewrite bind_get. reflexivity. Qed.

Lemma reply_to_send_error my_email characters fb c st msg persona e :
  fetched c = Normal msg ->
  skip my_email (replied_senders st) (get_sender msg) = false ->
  characters !! (pick c mod length characters) = Some persona ->
  delivery c = Raise e ->
  fst (reply_to my_email characters fb c st) = Raise e
  /\ view (snd (reply_to my_email characters fb c st)) = view st.
Proof.
  intros Hf Hs Hc Hd. unfold reply_to.
  rewrite bind_signal_at, Hf, bind_call_normal, bind_get.
  pose proof (quiet_signal_at AtFetch c st) as V1.
  destruct (view_fields _ _ V1) as (-> & _ & _).
  rewrite Hs. unfold choice. rewrite Hc, bind_ret, bind_emit.
  rewrite (bind_fst _ _ _ _ (generate_ai_reply_result c _)).
  erewrite bind_raise by (apply send_reply_raise, Hd).
  split; [reflexivity|]. simpl.
  rewrite quiet_signal_at, quiet_generate_ai_reply, view_add_out by reflexivity.
  exact V1.
Qed.

Lemma reply_to_accepted my_email characters fb c st msg persona u :
  fetched c = Normal msg ->
  skip my_email (replied_senders st) (get_sender msg) = false ->
  characters !! (pick c mod length characters) = Some persona ->
  delivery c = Normal u ->
  let sender := PyStr.of_option (get_sender msg) in
  fst (reply_to my_email characters fb c st) = Normal tt
  /\ view (snd (reply_to my_email characters fb c st))
     = ({[sender]} ∪ replied_senders st,
        Some (rows_of (csv_file st) ++ [reply_row c sender persona]),
        sent_mails (out st) ++ [reply_mail fb c sender persona]).
Proof.
  intros Hf Hs Hc Hd sender. unfold reply_to.
  rewrite bind_signal_at, Hf, bind_call_normal, bind_get.
  pose proof (quiet_signal_at AtFetch c st) as V1.
  destruct (view_fields _ _ V1) as (R1 & F1 & S1).
  rewrite R1, Hs. unfold choice. rewrite Hc, bind_ret, bind_emit.
  rewrite (bind_fst _ _ _ _ (generate_ai_reply_result c _)).
  erewrite bind_normal by (eapply send_reply_normal, Hd).
  rewrite bind_modify, bind_signal_at.
  erewrite bind_normal by apply save_replied_sender_run.
  rewrite bind_emit.
  unfold emit, modify. split; [reflexivity|].
  match goal with |- context [generate_ai_reply c ?s] =>
    pose proof (quiet_generate_ai_reply c s) as V2; set (st2 := snd (generate_ai_reply c s)) in * end.
  pose proof (quiet_signal_at AtSend c st2) as V3. set (st3 := snd (signal_at AtSend c st2)) in *.
  match goal with |- context [signal_at AtRecord c ?s] =>
    pose proof (quiet_signal_at AtRecord c s) as V4; set (st4 := snd (signal_at AtRecord c s)) in * end.
  rewrite view_add_out in V2 by reflexivity.
  destruct (view_fields _ _ V2) as (R2 & F2 & S2).
  destruct (view_fields _ _ V3) as (R3 & F3 & S3).
  destruct (view_fields _ _ V4) as (R4 & F4 & S4).
  simpl in R4, F4, S4.
  unfold view; simpl. rewrite !sent_mails_app; simpl. rewrite !app_nil_r.
  rewrite R4, F4, S4, sent_mails_app, R3, F3, S3, R2, F2, S2, R1, F1, S1.
  fold sender. unfold reply_row, reply_mail, reply_body, rows_of. simpl.
  destruct (csv_file st); reflexivity.
Qed.

Lemma reply_to_fallback my_email characters fb c st msg persona u :
  fetched c = Normal msg ->
  skip my_email (replied_senders st) (get_sender msg) = false ->
  characters !! (pick c mod length characters) = Some persona ->
  delivery c = Normal u ->
  PyStr.falsy (generated (completion c)) = true ->
  let sender := PyStr.of_option (get_sender msg) in
  let st' := snd (reply_to my_email characters fb c st) in
  fst (reply_to my_email characters fb c st) = Normal tt
  /\ sent_mails (out st')
     = sent_mails (out st)
       ++ [{| mail_to := sender;
              mail_subject := "Re: Automated Reply - OOO Automated Reply";
              mail_from := "secure.test@debagnik.in";
              mail_body := fb +:+ signature persona |}]
  /\ csv_file st'
     = Some (rows_of (csv_file st)
             ++ [[sender; clock c; csv_field (name persona); "Yes"]])
  /\ replied_senders st' = {[sender]} ∪ replied_senders st.
Proof.
  intros Hf Hs Hc Hd Hg sender st'.
  destruct (reply_to_accepted my_email characters fb c st msg persona u Hf Hs Hc Hd)
    as [Hr Hv].
  split; [exact Hr|]. unfold view in Hv. fold st' in Hv. fold sender in Hv.
  unfold reply_row, reply_mail, reply_body in Hv. rewrite Hg in Hv.
  inversion Hv as [[HR HF HS]]. now rewrite HR.
Qed.

(** C3 (amended): when the reply generator fails for a message the loop
    body accepts and the send succeeds, the body handed to [send_reply] is
    the fallback message verbatim, the body of the mail actually sent is
    the fallback message followed by the signature line
    [\n\n-<persona name>.], and the row appended to the ledger has
    [fallback_used = "Yes"]. *)
Theorem generator_failure_sends_fallback_signed
    my_email characters fb c st msg persona :
  fetched c = Normal msg ->
  skip my_email (replied_senders st) (get_sender msg) = false ->
  characters !! (pick c mod length characters) = Some persona ->
  ((exists e, completion c = Raise e) \/ completion c = Normal None) ->
  delivery c = Normal tt ->
  let sender := PyStr.of_option (get_sender msg) in
  let st' := snd (reply_to my_email characters fb c st) in
  fst (reply_to my_email characters fb c st) = Normal tt
  /\ sent_mails (out st')
     = sent_mails (out st)
       ++ [{| mail_to := sender;
              mail_subject := "Re: Automated Reply - OOO Automated Reply";
              mail_from := "secure.test@debagnik.in";
              mail_body := fb +:+ signature persona |}]
  /\ csv_file st'
     = Some (rows_of (csv_file st)
             ++ [[sender; clock c; csv_field (name persona); "Yes"]]).
Proof.
  intros Hf Hs Hc Hg Hd sender st'.
  assert (PyStr.falsy (generated (completion c)) = true) as Hfalsy.
  { destruct Hg as [[e ->]| ->]; reflexivity. }
  destruct (reply_to_fallback my_email characters fb c st msg persona tt
              Hf Hs Hc Hd Hfalsy) as (H1 & H2 & H3 & _).
  auto.
Qed.

Lemma is_empty_false s : s <> "" -> PyStr.is_empty s = false.
Proof. now destruct s. Qed.

Lemma is_empty_true s : s = "" -> PyStr.is_empty s = true.
Proof. now intros ->. Qed.

(** C4 (amended): when the completion call answers a text that is not
    empty once stripped, for a message the loop body accepts and whose
    send succeeds, the mail actually sent has as body the stripped text
    followed by the signature line, and the row appended to the ledger
    has [fallback_used = "No"]. *)
Theorem generator_success_sends_stripped_output_signed
    my_email characters fb c st msg persona text :
  fetched c = Normal msg ->
  skip my_email (replied_senders st) (get_sender msg) = false ->
  characters !! (pick c mod length characters) = Some persona ->
  completion c = Normal (Some text) ->
  PyStr.strip text <> "" ->
  delivery c = Normal tt ->
  let sender := PyStr.of_option (get_sender msg) in
  let st' := snd (reply_to my_email characters fb c st) in
  fst (reply_to my_email characters fb c st) = Normal tt
  /\ sent_mails (out st')
     = sent_mails (out st)
       ++ [{| mail_to := sender;
              mail_subject := "Re: Automated Reply - OOO Automated Reply";
              mail_from := "secure.test@debagnik.in";
              mail_body := PyStr.strip text +:+ signature persona |}]
  /\ csv_file st'
     = Some (rows_of (csv_file st)
             ++ [[sender; clock c; csv_field (name persona); "No"]]).
Proof.
  intros Hf Hs Hc Hg Hne Hd sender st'.
  destruct (reply_to_accepted my_email characters fb c st msg persona tt Hf Hs Hc Hd)
    as [Hr Hv].
  split; [exact Hr|]. unfold view in Hv. fold st' in Hv. fold sender in Hv.
  unfold reply_row, reply_mail, reply_body in Hv. rewrite Hg in Hv. simpl in Hv.
  rewrite (is_empty_false _ Hne) in Hv.
  inversion Hv as [[HR HF HS]]. split; reflexivity.
Qed.

(** Whatever decides the run of the loop body, apart from the text the
    generator answers, is the same in [c] and [with_completion o c]. *)
Lemma reply_to_same_view my_email characters fb c c' st :
  fetched c' = fetched c -> pick c' = pick c -> delivery c' = delivery c ->
  clock c' = clock c ->
  PyStr.falsy (generated (completion c')) = true ->
  PyStr.falsy (generated (completion c)) = true ->
  fst (reply_to my_email characters fb c' st) = fst (reply_to my_email characters fb c st)
  /\ view (snd (reply_to my_email characters fb c' st))
     = view (snd (reply_to my_email characters fb c st)).
Proof.
  intros Ef Ep Ed Ec G' G.
  destruct (fetched c) as [msg|e] eqn:Hf.
  2:{ rewrite !(reply_to_fetch_error _ _ _ _ _ e) by congruence. simpl.
      split; [reflexivity|]. now rewrite !quiet_signal_at. }
  destruct (skip my_email (replied_senders st) (get_sender msg)) eqn:Hs.
  { rewrite !(reply_to_skipped _ _ _ _ _ msg) by congruence.
    rewrite !quiet_signal_at. split; [|reflexivity].
    unfold signal_at. now rewrite !signal_normal. }
  destruct (characters !! (pick c mod length characters)) as [persona|] eqn:Hc.
  2:{ rewrite !(reply_to_no_persona _ _ _ _ _ msg) by congruence. simpl.
      split; [reflexivity|]. now rewrite !quiet_signal_at. }
  destruct (delivery c) as [u|e] eqn:Hd.
  - destruct (reply_to_accepted my_email characters fb c st msg persona u Hf Hs Hc Hd)
      as [-> ->].
    destruct (reply_to_accepted my_email characters fb c' st msg persona u)
      as [-> ->]; try congruence.
    split; [reflexivity|].
    unfold reply_row, reply_mail, reply_body. now rewrite G, G', Ec.
  - destruct (reply_to_send_error my_email characters fb c st msg persona e Hf Hs Hc Hd)
      as [-> ->].
    destruct (reply_to_send_error my_email characters fb c' st msg persona e)
      as [-> ->]; try congruence.
    split; reflexivity.
Qed.

(** C10: when the completion call succeeds with a text that is empty
    once stripped, the loop body does what it does when the call fails:
    the result, the in-memory set, the ledger file and the mails sent are
    the same as for a failing call; for an accepted message whose send
    succeeds the fallback message is the reply body handed to
    [send_reply] (the mail carries it followed by the signature line) and
    the ledger row has [fallback_used = "Yes"]. *)
Theorem blank_completion_is_a_generation_failure
    my_email characters fb c st text :
  completion c = Normal (Some text) ->
  PyStr.strip text = "" ->
  (forall e,
      fst (reply_to my_email characters fb c st)
      = fst (reply_to my_email characters fb (with_completion (Raise e) c) st)
      /\ view (snd (reply_to my_email characters fb c st))
         = view (snd (reply_to my_email characters fb (with_completion (Raise e) c) st)))
  /\ (forall msg persona,
         fetched c = Normal msg ->
         skip my_email (replied_senders st) (get_sender msg) = false ->
         characters !! (pick c mod length characters) = Some persona ->
         delivery c = Normal tt ->
         let sender := PyStr.of_option (get_sender msg) in
         let st' := snd (reply_to my_email characters fb c st) in
         sent_mails (out st')
         = sent_mails (out st)
           ++ [{| mail_to := sender;
                  mail_subject := "Re: Automated Reply - OOO Automated Reply";
                  mail_from := "secure.test@debagnik.in";
                  mail_body := fb +:+ signature persona |}]
         /\ csv_file st'
            = Some (rows_of (csv_file st)
                    ++ [[sender; clock c; csv_field (name persona); "Yes"]])).
Proof.
  intros Hg Hblank.
  assert (PyStr.falsy (generated (completion c)) = true) as Hfalsy.
  { rewrite Hg. simpl. now rewrite Hblank. }
  split.
  - intros e. apply reply_to_same_view; try reflexivity. exact Hfalsy.
  - intros msg persona Hf Hs Hc Hd sender st'.
    destruct (reply_to_fallback my_email characters fb c st msg persona tt
                Hf Hs Hc Hd Hfalsy) as (_ & H2 & H3 & _).
    auto.
Qed.

(** ** Invariants of the ledger view along a run *)

Lemma skip_false my_email replied sender :
  skip my_email replied sender = false ->
  exists s, sender = Some s /\ s <> "" /\ s <> my_email
            /\ (REPLY_ONCE = true -> s ∉ replied).
Proof.
  unfold skip. destruct sender as [s|]; [|discriminate].
  intros H. apply orb_false_elim in H as [H H3]. apply orb_false_elim in H as [H1 H2].
  exists s. repeat split.
  - intros ->. discriminate.
  - intros ->. now rewrite String.eqb_refl in H3.
  - intros HR. rewrite HR in H2. simpl in H2. now apply bool_decide_eq_false in H2.
Qed.

Lemma reply_to_step my_email characters fb c st :
  reply_step (view st) (view (snd (reply_to my_email characters fb c st))).
Proof.
  destruct (fetched c) as [msg|e] eqn:Hf.
  2:{ left. rewrite (reply_to_fetch_error _ _ _ _ _ e Hf). simpl.
      apply quiet_signal_at. }
  destruct (skip my_email (replied_senders st) (get_sender msg)) eqn:Hs.
  { left. rewrite (reply_to_skipped _ _ _ _ _ msg Hf Hs). apply quiet_signal_at. }
  destruct (characters !! (pick c mod length characters)) as [persona|] eqn:Hc.
  2:{ left. rewrite (reply_to_no_persona _ _ _ _ _ msg Hf Hs Hc). simpl.
      apply quiet_signal_at. }
  destruct (delivery c) as [u|e] eqn:Hd.
  - right.
    destruct (reply_to_accepted my_email characters fb c st msg persona u Hf Hs Hc Hd)
      as [_ ->].
    destruct (skip_false _ _ _ Hs) as (s & -> & _ & _ & Hnew). simpl.
    exists s, [clock c; csv_field (name persona);
               yes_no (PyStr.falsy (generated (completion c)))],
           (reply_mail fb c s persona).
    repeat split. exact Hnew.
  - left.
    now destruct (reply_to_send_error my_email characters fb c st msg persona e
                    Hf Hs Hc Hd) as [_ ->].
Qed.

Lemma keeps_quiet I {A} (m : M A) : quiet m -> keeps I m.
Proof. intros Hq st H. now rewrite Hq. Qed.

Lemma keeps_bind I {A B} (m : M A) (k : A -> M B) :
  keeps I m -> (forall a, keeps I (k a)) -> keeps I (bind m k).
Proof.
  intros Hm Hk st H. unfold bind. specialize (Hm st H).
  destruct (m st) as [[a|e] st1]; simpl in *; [|assumption].
  now apply Hk.
Qed.

Lemma keeps_try I {A} (m : M A) (h : string -> M A) :
  keeps I m -> (forall e, keeps I (h e)) -> keeps I (try_except m h).
Proof.
  intros Hm Hh st H. unfold try_except. specialize (Hm st H).
  destruct (m st) as [[a|e] st1]; simpl in *; [assumption|].
  now apply Hh.
Qed.

Lemma load_replied_senders_run st :
  load_replied_senders st
  = (Normal (list_to_set (ledger_senders (csv_file st))), st).
Proof. reflexivity. Qed.

Section Stable.

Variable I : gset string * option (list (list string)) * list mail -> Prop.
Hypothesis I_stable : stable I.

Lemma keeps_reply_to my_email characters fb c :
  keeps I (reply_to my_email characters fb c).
Proof. intros st H. eapply I_stable; [exact H|apply reply_to_step]. Qed.

Lemma keeps_for_messages my_email characters fb messages :
  keeps I (for_messages (reply_to my_email characters fb) messages).
Proof.
  induction messages as [|c rest IH]; simpl.
  - apply keeps_quiet, quiet_ret.
  - apply keeps_bind; [apply keeps_reply_to|intros _; exact IH].
Qed.

Lemma keeps_iteration my_email characters fb p :
  keeps I (iteration my_email characters fb p).
Proof.
  unfold iteration. apply keeps_try.
  - apply keeps_bind; [apply keeps_quiet, quiet_get_unread_messages|intros messages].
    apply keeps_bind; [apply keeps_for_messages|intros _].
    apply keeps_quiet, quiet_sleep_ticks.
  - intros e. apply keeps_quiet.
    apply quiet_bind; [apply quiet_emit; reflexivity|intros _; apply quiet_time_sleep].
Qed.

Lemma keeps_main_loop my_email characters fb script :
  keeps I (main_loop my_email characters fb script).
Proof.
  induction script as [|p rest IH]; simpl.
  - apply keeps_bind; [apply keeps_quiet, quiet_get|intros []];
      apply keeps_quiet, quiet_ret.
  - apply keeps_bind; [apply keeps_quiet, quiet_get|intros []].
    + apply keeps_quiet, quiet_ret.
    + apply keeps_bind; [apply keeps_iteration|intros _; exact IH].
Qed.

(** [main] after the ledger has been loaded into [replied_senders]. *)
Lemma keeps_main_after_load my_email boot script :
  keeps I
    (let! characters := load_characters (characters_dir boot) in
     let! fallback_message := load_fallback_message (reply_json boot) in
     let! characters :=
       match characters with
       | [] => emit (Log WARNING
                       "No character profiles found. Using default reply personality.") >>
               ret [default_character]
       | _ => ret characters
       end in
     let! st := main_loop my_email characters fallback_message script in
     match st with
     | Stopped => emit (Log INFO "Bot stopped gracefully.") >>
                  emit (Printed "Bot stopped gracefully.") >>
                  ret Stopped
     | Running => ret Running
     end).
Proof.
  apply keeps_bind; [apply keeps_quiet, quiet_load_characters|intros characters].
  apply keeps_bind; [apply keeps_quiet, quiet_load_fallback_message|intros fb].
  apply keeps_bind.
  { apply keeps_quiet. destruct characters; repeat quiet_step. }
  intros characters'.
  apply keeps_bind; [apply keeps_main_loop|intros []]; apply keeps_quiet;
    repeat quiet_step.
Qed.

(** [main] from its first line: the reload of the ledger replaces the
    in-memory set, which a fresh process holds empty. *)
Lemma main_keeps (I0 : gset string * option (list (list string)) * list mail -> Prop)
    boot script :
  (forall v, I v -> I0 v) ->
  (forall r f s, I0 (r, f, s) -> I (list_to_set (ledger_senders f), f, s)) ->
  keeps I0 (main boot script).
Proof.
  intros Hweak Hload st H0. unfold main.
  rewrite !bind_emit.
  assert (I0 (view (add_out
            [Printed ("Gmail Auto Reply Bot started. Press Ctrl+C to stop. "
                    +:+ "(Reply once per sender: " +:+ PyStr.of_bool REPLY_ONCE +:+ ")")]
            (add_out [Log INFO "Starting Gmail Auto Reply Bot (Windows)"] st)))) as H1.
  { now rewrite !view_add_out by reflexivity. }
  revert H1.
  generalize (add_out
            [Printed ("Gmail Auto Reply Bot started. Press Ctrl+C to stop. "
                    +:+ "(Reply once per sender: " +:+ PyStr.of_bool REPLY_ONCE +:+ ")")]
            (add_out [Log INFO "Starting Gmail Auto Reply Bot (Windows)"] st)).
  intros st1 H1.
  destruct (auth boot) as [my_email|e]; [|exact H1].
  rewrite bind_call_normal.
  erewrite bind_normal by apply load_replied_senders_run.
  rewrite bind_modify.
  apply Hweak. apply keeps_main_after_load.
  unfold view in *; simpl. now apply (Hload (replied_senders st1)).
Qed.

End Stable.

(** ** Reply-once *)

Lemma ledger_senders_append f s rest :
  f <> Some [] ->
  ledger_senders (Some (rows_of f ++ [s :: rest])) = ledger_senders f ++ [s].
Proof.
  intros Hf. destruct f as [[|h rows]|]; simpl; [congruence| |reflexivity].
  unfold first_fields. now rewrite omap_app.
Qed.

Lemma rows_of_append_nonempty f row : Some (rows_of f ++ [row]) <> Some [].
Proof. destruct f as [[|h rows]|]; simpl; congruence. Qed.





(** C6 (amended): every mail a process sends has the subject
    [Re: Automated Reply - OOO Automated Reply], whatever the headers of
    the message replied to: [main] hands the constant ["Automated Reply"]
    to [send_reply], which wraps the subject it is given between [Re: ]
    and [ - OOO Automated Reply]. *)
Theorem reply_subject_is_constant boot script f :
  Forall (fun m => mail_subject m = "Re: Automated Reply - OOO Automated Reply")
         (sent_mails (out (snd (run_process boot script f [])))).
Proof.
  set (I := fun v : gset string * option (list (list string)) * list mail =>
              Forall (fun m => mail_subject m
                               = "Re: Automated Reply - OOO Automated Reply") v.2).
  assert (stable I) as HI.
  { intros v v' Hv [->|(sender & rest & m & _ & _ & Hsub & ->)]; [exact Hv|].
    unfold I in *; simpl. apply Forall_app. split; [exact Hv|].
    constructor; [exact Hsub|constructor]. }
  apply (main_keeps I HI I boot script (fun v Hv => Hv)).
  - intros r f' s H. exact H.
  - unfold I, view. simpl. constructor.
Qed.

(** ** Failures inside a pass of the loop *)

Lemma time_sleep_normal n b st : fst (time_sleep n b st) = Normal tt.
Proof. unfold time_sleep. rewrite bind_emit. apply signal_normal. Qed.

Lemma time_sleep_sleeps n b st :
  sleeps (out (snd (time_sleep n b st))) = sleeps (out st) ++ [n].
Proof.
  unfold time_sleep. rewrite bind_emit, signal_sleeps. simpl. now rewrite sleeps_app.
Qed.

Lemma for_messages_raise body before c after st st1 e :
  for_messages body before st = (Normal tt, st1) ->
  fst (body c st1) = Raise e ->
  for_messages body (before ++ c :: after) st = (Raise e, snd (body c st1)).
Proof.
  revert st. induction before as [|b before IH]; intros st Hb Hc; simpl in *.
  - inversion Hb; subst st1. unfold bind.
    destruct (body c st) as [[u|e'] st2]; simpl in *; congruence.
  - unfold bind in *. destruct (body b st) as [[u|e'] st2]; [|discriminate].
    now apply IH.
Qed.

Lemma get_unread_messages_normal p st results messages :
  listing p = Normal (results, messages) ->
  fst (get_unread_messages p st) = Normal messages.
Proof.
  intros H. unfold get_unread_messages. rewrite bind_signal, H. reflexivity.
Qed.

Lemma get_unread_messages_raise p st e :
  listing p = Raise e ->
  get_unread_messages p st = (Raise e, snd (signal (listing_signal p) st)).
Proof.
  intros H. unfold get_unread_messages. rewrite bind_signal, H. reflexivity.
Qed.

Lemma main_loop_next my_email characters fb p rest st :
  shutdown_requested st = false ->
  fst (iteration my_email characters fb p st) = Normal tt ->
  main_loop my_email characters fb (p :: rest) st
  = main_loop my_email characters fb rest (snd (iteration my_email characters fb p st)).
Proof.
  intros Hflag Hn. simpl. rewrite bind_get, Hflag.
  exact (bind_fst _ (fun _ => main_loop my_email characters fb rest) st tt Hn).
Qed.

Lemma iteration_handler my_email characters fb p st e st2 :
  (let! messages := get_unread_messages p in
   for_messages (reply_to my_email characters fb) messages >>
   sleep_ticks (range CHECK_INTERVAL) (tick_signal p)) st = (Raise e, st2) ->
  iteration my_email characters fb p st
  = time_sleep 5 (delay_signal p) (add_out [Log ERROR ("Runtime error: " +:+ e)] st2).
Proof.
  intros H. unfold iteration, try_except. rewrite H. now rewrite bind_emit.
Qed.

(** C2 (amended): when the send fails for a message the loop body
    accepts, no ledger record is written for it (the in-memory set, the
    file and the mails sent are as before the message), the exception
    leaves the [for] loop and reaches the handler of the pass, which logs
    it as a runtime error and sleeps five seconds: the messages after it
    in the same pass are not processed in this pass and the responsive
    sleep is skipped; the process does not terminate, the [while] loop
    goes on with the next pass. *)
Theorem send_failure_abandons_the_pass
    my_email characters fb p results before c after rest st st1 msg persona e :
  shutdown_requested st = false ->
  listing p = Normal (results, before ++ c :: after) ->
  for_messages (reply_to my_email characters fb) before
               (snd (get_unread_messages p st)) = (Normal tt, st1) ->
  fetched c = Normal msg ->
  skip my_email (replied_senders st1) (get_sender msg) = false ->
  characters !! (pick c mod length characters) = Some persona ->
  delivery c = Raise e ->
  let st2 := snd (reply_to my_email characters fb c st1) in
  fst (reply_to my_email characters fb c st1) = Raise e
  /\ view st2 = view st1
  /\ iteration my_email characters fb p st
     = time_sleep 5 (delay_signal p)
                  (add_out [Log ERROR ("Runtime error: " +:+ e)] st2)
  /\ view (snd (iteration my_email characters fb p st)) = view st1
  /\ main_loop my_email characters fb (p :: rest) st
     = main_loop my_email characters fb rest
                 (snd (iteration my_email characters fb p st)).
Proof.
  intros Hflag Hl Hb Hf Hs Hc Hd st2.
  destruct (reply_to_send_error my_email characters fb c st1 msg persona e
              Hf Hs Hc Hd) as [Hr Hv].
  assert (iteration my_email characters fb p st
          = time_sleep 5 (delay_signal p)
                       (add_out [Log ERROR ("Runtime error: " +:+ e)] st2)) as Hit.
  { apply iteration_handler.
    rewrite (bind_fst _ _ _ _ (get_unread_messages_normal p st _ _ Hl)).
    erewrite bind_raise; [reflexivity|].
    now apply for_messages_raise. }
  repeat split; try assumption.
  - rewrite Hit, quiet_time_sleep, view_add_out by reflexivity. exact Hv.
  - apply main_loop_next; [exact Hflag|]. rewrite Hit. apply time_sleep_normal.
Qed.

(** C8 (amended): when the unread-message query fails in a pass, the
    exception reaches the handler of the pass, which logs it as a runtime
    error and sleeps a fixed five seconds, during which the flag is not
    checked: no message is processed, the ledger is untouched, the
    responsive sleep of [CHECK_INTERVAL] one-second ticks is skipped, and
    the [while] loop goes on with the next pass instead of terminating. *)
Theorem query_failure_takes_the_fixed_delay
    my_email characters fb p rest st e :
  shutdown_requested st = false ->
  listing p = Raise e ->
  let st' := snd (iteration my_email characters fb p st) in
  iteration my_email characters fb p st
  = time_sleep 5 (delay_signal p)
               (add_out [Log ERROR ("Runtime error: " +:+ e)]
                        (snd (signal (listing_signal p) st)))
  /\ view st' = view st
  /\ prompts (out st') = prompts (out st)
  /\ sleeps (out st') = sleeps (out st) ++ [5]
  /\ main_loop my_email characters fb (p :: rest) st
     = main_loop my_email characters fb rest st'.
Proof.
  intros Hflag Hl st'.
  assert (iteration my_email characters fb p st
          = time_sleep 5 (delay_signal p)
                       (add_out [Log ERROR ("Runtime error: " +:+ e)]
                                (snd (signal (listing_signal p) st)))) as Hit.
  { apply iteration_handler.
    erewrite bind_raise; [reflexivity|]. now apply get_unread_messages_raise. }
  split; [exact Hit|]. unfold st'. rewrite Hit.
  split; [|split; [|split]].
  - rewrite quiet_time_sleep, view_add_out by reflexivity. apply quiet_signal.
  - unfold time_sleep. rewrite bind_emit.
    destruct (delay_signal p), (listing_signal p); simpl;
      unfold graceful_shutdown; rewrite ?bind_get; simpl;
      destruct (shutdown_requested st); simpl;
      rewrite ?prompts_app; simpl; now rewrite ?app_nil_r.
  - rewrite time_sleep_sleeps. simpl. rewrite sleeps_app, signal_sleeps. simpl.
    now rewrite app_nil_r.
  - rewrite <- Hit. apply main_loop_next; [exact Hflag|].
    rewrite Hit. apply time_sleep_normal.
Qed.

(** ** Shutdown *)

Lemma reply_to_flag my_email characters fb c st msg persona u :
  fetched c = Normal msg ->
  skip my_email (replied_senders st) (get_sender msg) = false ->
  characters !! (pick c mod length characters) = Some persona ->
  delivery c = Normal u ->
  shutdown_requested (snd (reply_to my_email characters fb c st))
  = match interrupt c with Some _ => true | None => shutdown_requested st end.
Proof.
  intros Hf Hs Hc Hd. unfold reply_to.
  rewrite bind_signal_at, Hf, bind_call_normal, bind_get.
  destruct (view_fields _ _ (quiet_signal_at AtFetch c st)) as (-> & _ & _).
  rewrite Hs. unfold choice. rewrite Hc, bind_ret, bind_emit.
  rewrite (bind_fst _ _ _ _ (generate_ai_reply_result c _)).
  erewrite bind_normal by (eapply send_reply_normal, Hd).
  rewrite bind_modify, bind_signal_at.
  erewrite bind_normal by apply save_replied_sender_run.
  rewrite bind_emit. unfold emit, modify. simpl.
  unfold signal_at at 1. rewrite signal_sets. simpl.
  unfold signal_at at 1. rewrite signal_sets.
  rewrite generate_ai_reply_flag.
  unfold signal_at at 1. rewrite signal_sets. simpl.
  unfold signal_at. rewrite signal_sets.
  destruct (interrupt c) as [[]|]; simpl; rewrite ?orb_true_r; reflexivity.
Qed.

Lemma sleep_ticks_requested ticks arrives st :
  shutdown_requested st = true ->
  sleep_ticks ticks arrives st = (Normal tt, st).
Proof. intros H. destruct ticks; simpl; [reflexivity|]. now rewrite bind_get, H. Qed.

Lemma sleep_ticks_until arrives n : forall a st k,
  shutdown_requested st = false ->
  (a <= k < a + n)%nat ->
  (forall j, (a <= j < k)%nat -> arrives j = false) ->
  arrives k = true ->
  let st' := snd (sleep_ticks (seq a n) arrives st) in
  fst (sleep_ticks (seq a n) arrives st) = Normal tt
  /\ shutdown_requested st' = true
  /\ sleeps (out st') = sleeps (out st) ++ repeat 1%nat (S (k - a)).
Proof.
  induction n as [|n IH]; intros a st k Hflag Hk Hbefore Hat; [lia|].
  simpl. rewrite bind_get, Hflag.
  rewrite (bind_fst _ _ _ _ (time_sleep_normal 1 (arrives a) st)).
  destruct (Nat.eq_dec k a) as [->|Hne].
  - assert (shutdown_requested (snd (time_sleep 1 (arrives a) st)) = true) as Hset.
    { unfold time_sleep. rewrite bind_emit, signal_sets, Hat. reflexivity. }
    rewrite (sleep_ticks_requested _ _ _ Hset). simpl.
    repeat split; [exact Hset|].
    rewrite time_sleep_sleeps. now rewrite Nat.sub_diag.
  - assert (arrives a = false) as Ha by (apply Hbefore; lia).
    destruct (IH (S a) (snd (time_sleep 1 (arrives a) st)) k) as (H1 & H2 & H3);
      try assumption; try lia.
    + unfold time_sleep. rewrite bind_emit, signal_sets, Ha. exact Hflag.
    + intros j Hj. apply Hbefore. lia.
    + repeat split; [exact H1|exact H2|].
      rewrite H3, time_sleep_sleeps, <- app_assoc.
      replace (k - a)%nat with (S (k - S a)) by lia. reflexivity.
Qed.

Lemma main_loop_requested my_email characters fb script st :
  shutdown_requested st = true ->
  main_loop my_email characters fb script st = (Normal Stopped, st).
Proof. intros H. destruct script; simpl; now rewrite bind_get, H. Qed.

(** ** Loading the personas *)

Lemma read_characters_all entries : forall acc st,
  Forall loads entries ->
  read_characters entries acc st = (Normal (acc ++ json_personas entries), st).
Proof.
  induction entries as [|[file content] rest IH]; intros acc st H; simpl.
  - now rewrite app_nil_r.
  - inversion H as [|d ds Hd Hrest]; subst. unfold loads in Hd. simpl in Hd.
    destruct (PyStr.endswith file ".json").
    + destruct Hd as [c ->]; [reflexivity|].
      rewrite bind_call_normal, IH by assumption. now rewrite <- app_assoc.
    + now apply IH.
Qed.

Lemma read_characters_raise before file e after : forall acc st,
  Forall loads before ->
  PyStr.endswith file ".json" = true ->
  read_characters (before ++ (file, Raise e) :: after) acc st = (Raise e, st).
Proof.
  induction before as [|[file' content] rest IH]; intros acc st H Hjson; simpl.
  - now rewrite Hjson.
  - inversion H as [|d ds Hd Hrest]; subst. unfold loads in Hd. simpl in Hd.
    destruct (PyStr.endswith file' ".json").
    + destruct Hd as [c ->]; [reflexivity|].
      rewrite bind_call_normal. now apply IH.
    + now apply IH.
Qed.

(** C5 (amended): [load_characters] returns the personas of a directory
    all of whose [*.json] entries load, skipping silently the entries not
    named [*.json]; a malformed or unreadable [*.json] entry is not
    skipped: the exception of its load leaves [load_characters], which
    returns no persona and logs nothing, and [main] ends with that
    exception before the loop starts, having logged and printed only its
    start-up lines. *)
Theorem malformed_persona_aborts_startup :
  (forall entries st,
      Forall loads entries ->
      load_characters (Some entries) st = (Normal (json_personas entries), st))
  /\ (forall before file e after st,
         Forall loads before ->
         PyStr.endswith file ".json" = true ->
         load_characters (Some (before ++ (file, Raise e) :: after)) st = (Raise e, st))
  /\ (forall boot script f evs my_email before file e after,
         auth boot = Normal my_email ->
         characters_dir boot = Some (before ++ (file, Raise e) :: after) ->
         Forall loads before ->
         PyStr.endswith file ".json" = true ->
         fst (run_process boot script f evs) = Raise e
         /\ out (snd (run_process boot script f evs))
            = evs ++ [Log INFO "Starting Gmail Auto Reply Bot (Windows)";
                      Printed ("Gmail Auto Reply Bot started. Press Ctrl+C to stop. "
                             +:+ "(Reply once per sender: "
                             +:+ PyStr.of_bool REPLY_ONCE +:+ ")")]
         /\ csv_file (snd (run_process boot script f evs)) = f).
Proof.
  split; [|split].
  - intros entries st H. unfold load_characters.
    now rewrite read_characters_all.
  - intros before file e after st H Hjson. now apply read_characters_raise.
  - intros boot script f evs my_email before file e after Ha Hdir H Hjson.
    unfold run_process, main. rewrite !bind_emit, Ha, bind_call_normal.
    erewrite bind_normal by apply load_replied_senders_run.
    rewrite bind_modify.
    erewrite bind_raise
      by (rewrite Hdir; now apply read_characters_raise).
    simpl. rewrite <- app_assoc. repeat split.
Qed.

(** ** The ledger file *)

Lemma record_all_ledger records : forall st,
  csv_file st <> Some [] ->
  let st' := snd (record_all records st) in
  fst (record_all records st) = Normal tt
  /\ csv_file st' <> Some []
  /\ ledger_senders (csv_file st')
     = ledger_senders (csv_file st) ++ recorded records.
Proof.
  induction records as [|[[[sender character_name] used_fallback] now] rest IH];
    intros st Hne; simpl.
  - now rewrite app_nil_r.
  - erewrite bind_normal by apply save_replied_sender_run.
    destruct (IH (set_csv (Some (rows_of (csv_file st)
                                 ++ [[sender; now; csv_field character_name;
                                      yes_no used_fallback]])) st))
      as (H1 & H2 & H3).
    { apply rows_of_append_nonempty. }
    repeat split; [exact H1|exact H2|].
    rewrite H3. cbn [csv_file set_csv].
    rewrite ledger_senders_append by assumption. now rewrite <- app_assoc.
Qed.

(** C7: starting from an absent ledger file, after any sequence of
    record operations, reloading the ledger returns, without error and
    without touching the state, a set whose members are exactly the
    recorded senders; an absent file reloads as the empty set. *)
Theorem ledger_round_trip records st :
  csv_file st = None ->
  let st' := snd (record_all records st) in
  load_replied_senders st' = (Normal (list_to_set (recorded records)), st')
  /\ (forall s loaded,
         fst (load_replied_senders st') = Normal loaded ->
         (s ∈ loaded <-> s ∈ recorded records))
  /\ load_replied_senders st = (Normal ∅, st).
Proof.
  intros Habsent st'.
  destruct (record_all_ledger records st) as (_ & _ & H3).
  { rewrite Habsent. discriminate. }
  fold st' in H3. rewrite Habsent in H3. simpl in H3.
  split; [|split].
  - rewrite load_replied_senders_run. now rewrite H3.
  - intros s loaded Hl. rewrite load_replied_senders_run in Hl. simpl in Hl.
    inversion Hl; subst loaded. rewrite H3. apply elem_of_list_to_set.
  - rewrite load_replied_senders_run, Habsent. reflexivity.
Qed.

(** ** The replies of one process *)

Lemma reply_to_step_by my_email characters fb c st :
  reply_step_by my_email characters fb
                (view st) (view (snd (reply_to my_email characters fb c st))).
Proof.
  destruct (fetched c) as [msg|e] eqn:Hf.
  2:{ left. rewrite (reply_to_fetch_error _ _ _ _ _ e Hf). simpl.
      apply quiet_signal_at. }
  destruct (skip my_email (replied_senders st) (get_sender msg)) eqn:Hs.
  { left. rewrite (reply_to_skipped _ _ _ _ _ msg Hf Hs). apply quiet_signal_at. }
  destruct (characters !! (pick c mod length characters)) as [persona|] eqn:Hc.
  2:{ left. rewrite (reply_to_no_persona _ _ _ _ _ msg Hf Hs Hc). simpl.
      apply quiet_signal_at. }
  destruct (delivery c) as [u|e] eqn:Hd.
  - right.
    destruct (reply_to_accepted my_email characters fb c st msg persona u Hf Hs Hc Hd)
      as [_ ->].
    destruct (skip_false _ _ _ Hs) as (s & Hsender & _). rewrite Hsender in *. simpl.
    exists c, s, persona. repeat split; [exact Hs|].
    eapply list_elem_of_lookup_2, Hc.
  - left.
    now destruct (reply_to_send_error my_email characters fb c st msg persona e
                    Hf Hs Hc Hd) as [_ ->].
Qed.

Lemma keeps_for_messages_by my_email characters fb I messages :
  stable_by my_email characters fb I ->
  keeps I (for_messages (reply_to my_email characters fb) messages).
Proof.
  intros HI. induction messages as [|c rest IH]; simpl.
  - apply keeps_quiet, quiet_ret.
  - apply keeps_bind; [|intros _; exact IH].
    intros st H. eapply HI; [exact H|apply reply_to_step_by].
Qed.

Lemma keeps_iteration_by my_email characters fb I p :
  stable_by my_email characters fb I ->
  keeps I (iteration my_email characters fb p).
Proof.
  intros HI. unfold iteration. apply keeps_try.
  - apply keeps_bind; [apply keeps_quiet, quiet_get_unread_messages|intros messages].
    apply keeps_bind; [now apply keeps_for_messages_by|intros _].
    apply keeps_quiet, quiet_sleep_ticks.
  - intros e. apply keeps_quiet.
    apply quiet_bind; [apply quiet_emit; reflexivity|intros _; apply quiet_time_sleep].
Qed.

Lemma keeps_main_loop_by my_email characters fb I script :
  stable_by my_email characters fb I ->
  keeps I (main_loop my_email characters fb script).
Proof.
  intros HI. induction script as [|p rest IH]; simpl.
  - apply keeps_bind; [apply keeps_quiet, quiet_get|intros []];
      apply keeps_quiet, quiet_ret.
  - apply keeps_bind; [apply keeps_quiet, quiet_get|intros []].
    + apply keeps_quiet, quiet_ret.
    + apply keeps_bind; [now apply keeps_iteration_by|intros _; exact IH].
Qed.

Lemma read_characters_result entries : forall acc st,
  snd (read_characters entries acc st) = st
  /\ forall cs, fst (read_characters entries acc st) = Normal cs ->
                cs = acc ++ json_personas entries.
Proof.
  induction entries as [|[file content] rest IH]; intros acc st; simpl.
  - split; [reflexivity|]. intros cs H. inversion H. now rewrite app_nil_r.
  - destruct (PyStr.endswith file ".json").
    + destruct content as [c|e]; simpl.
      * rewrite bind_call_normal. destruct (IH (acc ++ [c]) st) as [H1 H2].
        split; [exact H1|]. intros cs H. rewrite (H2 cs H). now rewrite <- app_assoc.
      * split; [reflexivity|]. intros cs H. discriminate.
    + apply IH.
Qed.

Lemma load_characters_result dir st :
  snd (load_characters dir st) = st
  /\ forall cs, fst (load_characters dir st) = Normal cs ->
                match cs with [] => [default_character] | _ :: _ => cs end
                = personas dir.
Proof.
  destruct dir as [entries|]; simpl.
  - destruct (read_characters_result entries [] st) as [H1 H2].
    split; [exact H1|]. intros cs H. rewrite (H2 cs H). simpl.
    now destruct (json_personas entries).
  - split; [reflexivity|]. intros cs H. now inversion H.
Qed.

Lemma load_fallback_message_result file st :
  snd (load_fallback_message file st) = st
  /\ forall fb, fst (load_fallback_message file st) = Normal fb ->
                fb = fallback_of file.
Proof.
  destruct file as [[data|e]|]; simpl; (split; [reflexivity|]); intros fb H;
    now inversion H.
Qed.

Lemma bind_assoc {A B C} (m : M A) (f : A -> M B) (g : B -> M C) st :
  bind (bind m f) g st = bind m (fun x => bind (f x) g) st.
Proof. unfold bind. now destruct (m st) as [[a|e] st']. Qed.

(** [main] keeps what the replies of the process keep, the address, the
    personas and the fallback message being those the start-up loaded. *)
Lemma main_keeps_by
    (I I0 : gset string * option (list (list string)) * list mail -> Prop)
    boot script :
  (forall my_email,
      auth boot = Normal my_email ->
      stable_by my_email (personas (characters_dir boot))
                (fallback_of (reply_json boot)) I) ->
  (forall v, I v -> I0 v) ->
  (forall r f s, I0 (r, f, s) -> I (list_to_set (ledger_senders f), f, s)) ->
  keeps I0 (main boot script).
Proof.
  intros HI Hweak Hload st H0. unfold main. rewrite !bind_emit.
  set (st1 := add_out _ (add_out _ st)).
  assert (I0 (view st1)) as H1.
  { unfold st1. now rewrite !view_add_out by reflexivity. }
  clearbody st1.
  destruct (auth boot) as [my_email|e] eqn:Ha; [|exact H1].
  rewrite bind_call_normal.
  erewrite bind_normal by apply load_replied_senders_run.
  rewrite bind_modify.
  set (st2 := set_replied _ st1).
  assert (I (view st2)) as H2.
  { unfold st2, view in *; simpl. now apply (Hload (replied_senders st1)). }
  clearbody st2. apply Hweak.
  destruct (load_characters_result (characters_dir boot) st2) as [Hst Hcs].
  unfold bind at 1.
  destruct (load_characters (characters_dir boot) st2) as [[cs|e] st3] eqn:Hl;
    simpl in Hst; subst st3; [|exact H2].
  specialize (Hcs cs eq_refl).
  destruct (load_fallback_message_result (reply_json boot) st2) as [Hst Hfb].
  unfold bind at 1.
  destruct (load_fallback_message (reply_json boot) st2) as [[fb|e] st3] eqn:Hm;
    simpl in Hst; subst st3; [|exact H2].
  specialize (Hfb fb eq_refl). subst fb.
  assert (keeps I (main_loop my_email (personas (characters_dir boot))
                             (fallback_of (reply_json boot)) script)) as Hloop
    by (apply keeps_main_loop_by, HI; reflexivity).
  destruct cs as [|c cs'].
  - rewrite bind_assoc, bind_emit, bind_ret, Hcs. unfold bind.
    specialize (Hloop (add_out [Log WARNING
                "No character profiles found. Using default reply personality."] st2)).
    rewrite view_add_out in Hloop by reflexivity. specialize (Hloop H2).
    destruct (main_loop _ _ _ _ _) as [[[|]|e] st3]; simpl in *;
      rewrite ?view_add_out by reflexivity; exact Hloop.
  - rewrite bind_ret, Hcs. unfold bind.
    specialize (Hloop st2 H2).
    destruct (main_loop _ _ _ _ _) as [[[|]|e] st3]; simpl in *;
      rewrite ?view_add_out by reflexivity; exact Hloop.
Qed.

(** X1: a process never sends a mail to the address of its own mailbox
    nor to an empty address, whatever the reply-once toggle and whatever
    the ledger holds; every mail it sends carries the fixed From address
    [secure.test@debagnik.in], not the address of the mailbox. *)
Theorem no_reply_to_own_or_empty_address boot script f my_email :
  auth boot = Normal my_email ->
  Forall (fun m => mail_to m <> my_email /\ mail_to m <> ""
                   /\ mail_from m = "secure.test@debagnik.in")
         (sent_mails (out (snd (run_process boot script f [])))).
Proof.
  intros Ha.
  set (I := fun v : gset string * option (list (list string)) * list mail =>
              Forall (fun m => mail_to m <> my_email /\ mail_to m <> ""
                               /\ mail_from m = "secure.test@debagnik.in") v.2).
  apply (main_keeps_by I I boot script).
  - intros my_email' Ha' v v' Hv [->|(c & sender & persona & Hs & _ & ->)];
      [exact Hv|].
    assert (my_email' = my_email) as -> by congruence.
    unfold I in *; simpl. apply Forall_app. split; [exact Hv|].
    destruct (skip_false _ _ _ Hs) as (s & Hsome & Hne & Hself & _).
    inversion Hsome; subst s.
    constructor; [|constructor]. simpl. repeat split; assumption.
  - intros v Hv. exact Hv.
  - intros r f' s H. exact H.
  - unfold I, view. simpl. constructor.
Qed.

Lemma reply_body_cases fb c :
  reply_body fb c = fb \/ reply_body fb c <> "".
Proof.
  unfold reply_body.
  destruct (generated (completion c)) as [s|]; simpl; [|now left].
  destruct s; simpl; [now left|right; discriminate].
Qed.

(** X2: every mail a process sends carries a text followed by the
    signature line of one of the personas the start-up loaded (the
    default persona when the directory gives none); the text is the
    fallback message the start-up loaded or is not empty. *)
Theorem replies_are_signed_by_a_loaded_persona boot script f :
  Forall (fun m => exists persona text,
              persona ∈ personas (characters_dir boot)
              /\ mail_body m = text +:+ signature persona
              /\ (text = fallback_of (reply_json boot) \/ text <> ""))
         (sent_mails (out (snd (run_process boot script f [])))).
Proof.
  set (P := fun m => exists persona text,
              persona ∈ personas (characters_dir boot)
              /\ mail_body m = text +:+ signature persona
              /\ (text = fallback_of (reply_json boot) \/ text <> "")).
  set (I := fun v : gset string * option (list (list string)) * list mail =>
              Forall P v.2).
  apply (main_keeps_by I I boot script).
  - intros my_email Ha v v' Hv [->|(c & sender & persona & _ & Hp & ->)];
      [exact Hv|].
    unfold I in *; simpl. apply Forall_app. split; [exact Hv|].
    constructor; [|constructor].
    exists persona, (reply_body (fallback_of (reply_json boot)) c).
    split; [exact Hp|]. split; [reflexivity|apply reply_body_cases].
  - intros v Hv. exact Hv.
  - intros r f' s H. exact H.
  - unfold I, view. simpl. constructor.
Qed.

(** ** The ledger along a run, whatever the toggle *)






(** ** The ledger file, row by row *)

Lemma extended_cons f row rows :
  extended (Some (rows_of f ++ [row])) rows = extended f (row :: rows).
Proof.
  destruct rows as [|r rows]; simpl; [reflexivity|]. now rewrite <- app_assoc.
Qed.

Lemma record_all_file records : forall st,
  fst (record_all records st) = Normal tt
  /\ csv_file (snd (record_all records st))
     = extended (csv_file st) (record_row <$> records).
Proof.
  induction records as [|[[[sender character_name] used_fallback] now] rest IH];
    intros st; simpl; [now split|].
  erewrite bind_normal by apply save_replied_sender_run.
  destruct (IH (set_csv (Some (rows_of (csv_file st)
                               ++ [[sender; now; csv_field character_name;
                                    yes_no used_fallback]])) st)) as [H1 H2].
  split; [exact H1|]. rewrite H2. cbn [csv_file set_csv].
  now rewrite extended_cons.
Qed.

Lemma first_fields_record_rows records :
  first_fields (record_row <$> records) = recorded records.
Proof.
  unfold first_fields, recorded.
  induction records as [|r rest IH]; [reflexivity|].
  rewrite !fmap_cons. cbn [omap list_omap head record_row]. now rewrite IH.
Qed.

(** X6: when the ledger file exists but is empty, no header row is ever
    written, and a reload, which skips the first row, forgets the first
    sender recorded: the set holds the senders of the later records
    only. *)
Theorem empty_ledger_file_forgets_first_sender r rest st :
  csv_file st = Some [] ->
  let st' := snd (record_all (r :: rest) st) in
  csv_file st' = Some (record_row <$> (r :: rest))
  /\ load_replied_senders st' = (Normal (list_to_set (recorded rest)), st').
Proof.
  intros Hf st'.
  destruct (record_all_file (r :: rest) st) as [_ H2]. fold st' in H2.
  rewrite Hf in H2. simpl in H2.
  split; [exact H2|].
  rewrite load_replied_senders_run, H2. simpl.
  now rewrite first_fields_record_rows.
Qed.

(** ** Exceptions and the loop *)

Lemma iteration_normal my_email characters fb p st :
  fst (iteration my_email characters fb p st) = Normal tt.
Proof.
  unfold iteration, try_except.
  destruct ((let! messages := get_unread_messages p in _) st) as [[[]|e] st1];
    [reflexivity|].
  rewrite bind_emit. apply time_sleep_normal.
Qed.

Lemma main_loop_normal my_email characters fb script : forall st,
  fst (main_loop my_email characters fb script st) = Normal Stopped
  \/ fst (main_loop my_email characters fb script st) = Normal Running.
Proof.
  induction script as [|p rest IH]; intros st; simpl; rewrite bind_get;
    destruct (shutdown_requested st); try (now left); try (now right).
  rewrite (bind_fst _ _ _ _ (iteration_normal my_email characters fb p st)).
  apply IH.
Qed.

(** X7: no exception raised by the unread-message query, by the fetch of
    a message, by the text generator or by a send leaves a pass of the
    [while] loop: the handler of the pass takes it, so a pass always ends
    normally and the loop itself ends only stopped or still running,
    never with an exception. *)
Theorem errors_never_leave_the_loop :
  (forall my_email characters fb p st,
      fst (iteration my_email characters fb p st) = Normal tt)
  /\ (forall my_email characters fb script st,
         fst (main_loop my_email characters fb script st) = Normal Stopped
         \/ fst (main_loop my_email characters fb script st) = Normal Running).
Proof.
  split; [exact iteration_normal|exact main_loop_normal].
Qed.

(** ** Resolving the sender *)

Lemma get_sender_of_none hs :
  get_sender_of hs = None <-> Forall not_from hs.
Proof.
  induction hs as [|h rest IH]; simpl.
  - split; [constructor|reflexivity].
  - destruct (String.eqb (PyStr.lower (h_name h)) "from") eqn:E.
    + apply String.eqb_eq in E. split; [discriminate|].
      intros H. inversion H as [|x xs Hx Hxs]; subst. now destruct Hx.
    + apply String.eqb_neq in E. rewrite IH. split.
      * intros H. now constructor.
      * intros H. now inversion H.
Qed.

(** X8: [get_sender] returns the address [parseaddr] extracts from the
    first header whose name is From in any letter case, whatever follows
    it, and [None] exactly when the message has no such header. *)
Theorem get_sender_reads_the_first_from_header :
  (forall msg, get_sender msg = None <-> Forall not_from (headers msg))
  /\ (forall before h after,
         Forall not_from before ->
         PyStr.lower (h_name h) = "from" ->
         get_sender {| headers := before ++ h :: after |}
         = Some (snd (parseaddr (h_value h)))).
Proof.
  split; [intros msg; apply get_sender_of_none|].
  intros before h after Hb Hh. unfold get_sender. simpl.
  induction Hb as [|x xs Hx Hxs IH]; simpl.
  - now rewrite Hh.
  - apply String.eqb_neq in Hx. now rewrite Hx.
Qed.

Lemma signal_prompts b st : prompts (out (snd (signal b st))) = prompts (out st).
Proof.
  destruct b; [|reflexivity]. unfold signal, graceful_shutdown.
  rewrite bind_get. destruct (shutdown_requested st); [reflexivity|].
  simpl. rewrite <- app_assoc, prompts_app. simpl. now rewrite app_nil_r.
Qed.

(** X9: a message whose sender cannot be resolved (no From header), or
    is resolved to the empty address, or is the mailbox itself, is
    dropped right after the fetch, whatever the reply-once toggle and the
    ledger: the text generator is not called, no mail is sent and
    nothing is recorded. *)
Theorem unanswerable_message_is_dropped my_email characters fb c st msg :
  fetched c = Normal msg ->
  (get_sender msg = None \/ get_sender msg = Some ""
   \/ get_sender msg = Some my_email) ->
  let st' := snd (reply_to my_email characters fb c st) in
  reply_to my_email characters fb c st = signal_at AtFetch c st
  /\ view st' = view st
  /\ prompts (out st') = prompts (out st).
Proof.
  intros Hf Hs st'.
  assert (skip my_email (replied_senders st) (get_sender msg) = true) as Hskip.
  { destruct Hs as [->| [->| ->]]; simpl; [reflexivity|reflexivity|].
    rewrite String.eqb_refl. now rewrite !orb_true_r. }
  pose proof (reply_to_skipped my_email characters fb c st msg Hf Hskip) as H.
  split; [exact H|]. unfold st'. rewrite H.
  split; [apply quiet_signal_at|apply signal_prompts].
Qed.

(** X10: when fetching a message of a pass fails, the exception leaves
    the [for] loop and reaches the handler of the pass, which logs it and
    sleeps five seconds: nothing is sent or recorded for that message,
    the messages after it are not processed in this pass, and the
    [while] loop goes on with the next pass. *)
Theorem fetch_failure_abandons_the_pass
    my_email characters fb p results before c after rest st st1 e :
  shutdown_requested st = false ->
  listing p = Normal (results, before ++ c :: after) ->
  for_messages (reply_to my_email characters fb) before
               (snd (get_unread_messages p st)) = (Normal tt, st1) ->
  fetched c = Raise e ->
  iteration my_email characters fb p st
  = time_sleep 5 (delay_signal p)
               (add_out [Log ERROR ("Runtime error: " +:+ e)]
                        (snd (signal_at AtFetch c st1)))
  /\ view (snd (iteration my_email characters fb p st)) = view st1
  /\ main_loop my_email characters fb (p :: rest) st
     = main_loop my_email characters fb rest
                 (snd (iteration my_email characters fb p st)).
Proof.
  intros Hflag Hl Hb Hf.
  pose proof (reply_to_fetch_error my_email characters fb c st1 e Hf) as Hr.
  assert (iteration my_email characters fb p st
          = time_sleep 5 (delay_signal p)
                       (add_out [Log ERROR ("Runtime error: " +:+ e)]
                                (snd (signal_at AtFetch c st1)))) as Hit.
  { apply iteration_handler.
    rewrite (bind_fst _ _ _ _ (get_unread_messages_normal p st _ _ Hl)).
    erewrite bind_raise; [reflexivity|].
    erewrite for_messages_raise; [|exact Hb|now rewrite Hr].
    now rewrite Hr. }
  split; [exact Hit|]. split.
  - rewrite Hit, quiet_time_sleep, view_add_out by reflexivity.
    apply quiet_signal_at.
  - apply main_loop_next; [exact Hflag|apply iteration_normal].
Qed.

(** ** The responsive sleep *)

Lemma sleep_ticks_bounded arrives ticks : forall st,
  exists n, (n <= length ticks)%nat
            /\ sleeps (out (snd (sleep_ticks ticks arrives st)))
               = sleeps (out st) ++ repeat 1%nat n.
Proof.
  induction ticks as [|k rest IH]; intros st; simpl.
  - exists 0%nat. split; [lia|]. simpl. now rewrite app_nil_r.
  - rewrite bind_get. destruct (shutdown_requested st).
    + exists 0%nat. split; [lia|]. simpl. now rewrite app_nil_r.
    + rewrite (bind_fst _ _ _ _ (time_sleep_normal 1 (arrives k) st)).
      destruct (IH (snd (time_sleep 1 (arrives k) st))) as (n & Hn & Hs).
      exists (S n). split; [lia|].
      rewrite Hs, time_sleep_sleeps, <- app_assoc. reflexivity.
Qed.

Lemma sleep_ticks_undisturbed arrives ticks : forall st,
  shutdown_requested st = false ->
  (forall k, arrives k = false) ->
  let st' := snd (sleep_ticks ticks arrives st) in
  fst (sleep_ticks ticks arrives st) = Normal tt
  /\ shutdown_requested st' = false
  /\ sleeps (out st') = sleeps (out st) ++ repeat 1%nat (length ticks).
Proof.
  induction ticks as [|k rest IH]; intros st Hflag Hno; simpl.
  - repeat split; [exact Hflag|]. now rewrite app_nil_r.
  - rewrite bind_get, Hflag.
    rewrite (bind_fst _ _ _ _ (time_sleep_normal 1 (arrives k) st)).
    destruct (IH (snd (time_sleep 1 (arrives k) st))) as (H1 & H2 & H3);
      [|exact Hno|].
    + unfold time_sleep. rewrite bind_emit, signal_sets, Hno. exact Hflag.
    + repeat split; [exact H1|exact H2|].
      rewrite H3, time_sleep_sleeps, <- app_assoc. reflexivity.
Qed.

Lemma length_range n : length (range n) = Z.to_nat n.
Proof. unfold range. apply length_seq. Qed.

(** X11: the responsive sleep is a number of one-second sleeps that
    never exceeds [CHECK_INTERVAL]; it is exactly [CHECK_INTERVAL] when
    no shutdown is requested before or during it, none at all when
    [CHECK_INTERVAL] is zero or negative, and none when the shutdown is
    already requested. *)
Theorem responsive_sleep_is_bounded arrives st :
  let st' := snd (sleep_ticks (range CHECK_INTERVAL) arrives st) in
  (exists n, (n <= Z.to_nat CHECK_INTERVAL)%nat
             /\ sleeps (out st') = sleeps (out st) ++ repeat 1%nat n)
  /\ (shutdown_requested st = false ->
      (forall k, arrives k = false) ->
      shutdown_requested st' = false
      /\ sleeps (out st') = sleeps (out st) ++ repeat 1%nat (Z.to_nat CHECK_INTERVAL))
  /\ ((CHECK_INTERVAL <= 0)%Z -> st' = st)
  /\ (shutdown_requested st = true -> st' = st).
Proof.
  intros st'. split; [|split; [|split]].
  - destruct (sleep_ticks_bounded arrives (range CHECK_INTERVAL) st) as (n & Hn & Hs).
    exists n. rewrite length_range in Hn. now split.
  - intros Hflag Hno.
    destruct (sleep_ticks_undisturbed arrives (range CHECK_INTERVAL) st Hflag Hno)
      as (_ & H2 & H3).
    rewrite length_range in H3. now split.
  - intros Hle. unfold st', range.
    replace (Z.to_nat CHECK_INTERVAL) with 0%nat by lia. reflexivity.
  - intros Hflag. unfold st'. now rewrite sleep_ticks_requested.
Qed.

(** ** Every answerable message is answered *)

Lemma skip_false_intro my_email replied s :
  s <> "" -> s <> my_email -> (REPLY_ONCE = true -> s ∉ replied) ->
  skip my_email replied (Some s) = false.
Proof.
  intros Hne Hself Hnew. unfold skip.
  rewrite (is_empty_false _ Hne). apply String.eqb_neq in Hself. rewrite Hself.
  destruct REPLY_ONCE; simpl; [|reflexivity].
  rewrite bool_decide_eq_false_2; [reflexivity|now apply Hnew].
Qed.

Lemma drawn_lookup characters c :
  characters <> [] ->
  characters !! (pick c mod length characters) = Some (drawn characters c).
Proof.
  intros Hne. unfold drawn.
  destruct (lookup_lt_is_Some_2 characters (pick c mod length characters)) as [p Hp].
  - apply Nat.mod_upper_bound. destruct characters; [congruence|simpl; lia].
  - now rewrite Hp.
Qed.

Lemma for_messages_answerable my_email characters fb cs : forall st,
  characters <> [] ->
  Forall (answerable my_email) cs ->
  (REPLY_ONCE = true ->
   NoDup (sender_of <$> cs)
   /\ forall s, s ∈ sender_of <$> cs -> s ∉ replied_senders st) ->
  let st' := snd (for_messages (reply_to my_email characters fb) cs st) in
  fst (for_messages (reply_to my_email characters fb) cs st) = Normal tt
  /\ sent_mails (out st')
     = sent_mails (out st)
       ++ ((fun c => reply_mail fb c (sender_of c) (drawn characters c)) <$> cs)
  /\ csv_file st'
     = extended (csv_file st)
                ((fun c => reply_row c (sender_of c) (drawn characters c)) <$> cs)
  /\ replied_senders st' = list_to_set (sender_of <$> cs) ∪ replied_senders st
  /\ (Forall (fun c => interrupt c = None) cs ->
      shutdown_requested st' = shutdown_requested st).
Proof.
  induction cs as [|c rest IH]; intros st Hne Hall Honce; simpl.
  - repeat split; [now rewrite app_nil_r|].
    apply set_eq. intros x. rewrite elem_of_union, elem_of_empty. tauto.
  - inversion Hall as [|x xs Hc Hrest]; subst.
    destruct Hc as (msg & s & Hf & Hs & Hs1 & Hs2 & Hd).
    assert (sender_of c = s) as Hsender by (unfold sender_of; now rewrite Hf, Hs).
    assert (skip my_email (replied_senders st) (get_sender msg) = false) as Hskip.
    { rewrite Hs. apply skip_false_intro; try assumption.
      intros HR. destruct (Honce HR) as [_ Hnew]. apply Hnew.
      rewrite fmap_cons, Hsender. apply list_elem_of_here. }
    pose proof (drawn_lookup characters c Hne) as Hdraw.
    destruct (reply_to_accepted my_email characters fb c st msg _ tt
                Hf Hskip Hdraw Hd) as [Hr Hv].
    pose proof (reply_to_flag my_email characters fb c st msg _ tt
                  Hf Hskip Hdraw Hd) as Hflag.
    rewrite Hs in Hv. simpl in Hv. unfold view in Hv.
    inversion Hv as [[HR HF HS]]. clear Hv.
    rewrite (bind_fst _ _ _ _ Hr).
    destruct (IH (snd (reply_to my_email characters fb c st)) Hne Hrest)
      as (I1 & I2 & I3 & I4 & I5).
    { intros HRO. destruct (Honce HRO) as [Hnd Hnew].
      rewrite fmap_cons in Hnd. apply NoDup_cons in Hnd as [Hnotin Hnd].
      split; [exact Hnd|]. intros s' Hs'. rewrite HR.
      rewrite elem_of_union, elem_of_singleton. intros [->|Hin].
      - apply Hnotin. now rewrite Hsender.
      - apply (Hnew s'); [|exact Hin]. rewrite fmap_cons. now apply list_elem_of_further. }
    split; [exact I1|]. rewrite I2, I3, I4, HS, HF, HR, Hsender.
    split; [now rewrite <- app_assoc|].
    split; [now rewrite extended_cons|].
    split.
    + apply set_eq. intros x. rewrite !elem_of_union, elem_of_singleton. tauto.
    + intros Hquiet. inversion Hquiet as [|y ys Hy Hys]; subst.
      rewrite (I5 Hys), Hflag, Hy. reflexivity.
Qed.

(** X12: in one run of the [for] loop over messages that are fetched,
    whose senders are resolved, not empty and not the mailbox itself, and
    whose sends succeed, every message is answered, in order: one mail
    and one ledger row per message, and every sender ends in the
    in-memory set.  With the reply-once toggle on this needs the senders
    to be pairwise distinct and not yet in the set; with the toggle off
    it needs nothing more.  When no signal arrives meanwhile the shutdown
    flag is left as it was. *)
Theorem every_answerable_message_is_answered my_email characters fb cs st :
  characters <> [] ->
  Forall (answerable my_email) cs ->
  (REPLY_ONCE = true ->
   NoDup (sender_of <$> cs)
   /\ forall s, s ∈ sender_of <$> cs -> s ∉ replied_senders st) ->
  let st' := snd (for_messages (reply_to my_email characters fb) cs st) in
  fst (for_messages (reply_to my_email characters fb) cs st) = Normal tt
  /\ sent_mails (out st')
     = sent_mails (out st)
       ++ ((fun c => reply_mail fb c (sender_of c) (drawn characters c)) <$> cs)
  /\ csv_file st'
     = extended (csv_file st)
                ((fun c => reply_row c (sender_of c) (drawn characters c)) <$> cs)
  /\ replied_senders st' = list_to_set (sender_of <$> cs) ∪ replied_senders st
  /\ (Forall (fun c => interrupt c = None) cs ->
      shutdown_requested st' = shutdown_requested st).
Proof. apply for_messages_answerable. Qed.

(** ** Without reply-once *)

Lemma recipients_reply_mails fb characters (cs : list incoming) :
  mail_to <$> ((fun c => reply_mail fb c (sender_of c) (drawn characters c)) <$> cs)
  = sender_of <$> cs.
Proof.
  induction cs as [|c rest IH]; [reflexivity|].
  rewrite !fmap_cons, IH. reflexivity.
Qed.

Lemma iteration_answers_all my_email characters fb p st :
  REPLY_ONCE = false ->
  characters <> [] ->
  shutdown_requested st = false ->
  undisturbed p ->
  Forall (answerable my_email) (listed p) ->
  let st' := snd (iteration my_email characters fb p st) in
  shutdown_requested st' = false
  /\ recipients (out st') = recipients (out st) ++ (sender_of <$> listed p).
Proof.
  intros HR Hne Hflag (Hq1 & Hq2 & Hq3 & Hq4) Hall st'.
  unfold st', iteration, try_except, listed in *.
  destruct (listing p) as [[results cs]|e] eqn:Hl.
  - simpl in Hq4, Hall.
    rewrite (bind_fst _ _ _ _ (get_unread_messages_normal p st _ _ Hl)).
    set (st0 := snd (get_unread_messages p st)).
    assert (shutdown_requested st0 = false /\ view st0 = view st) as [Hflag0 Hv0].
    { unfold st0, get_unread_messages. rewrite bind_signal, Hq1, Hl. simpl.
      split; [exact Hflag|]. now rewrite view_add_out by reflexivity. }
    destruct (for_messages_answerable my_email characters fb cs st0 Hne Hall)
      as (F1 & F2 & _ & _ & F5).
    { intros HR'. congruence. }
    rewrite (bind_fst _ _ _ _ F1).
    set (st1 := snd (for_messages (reply_to my_email characters fb) cs st0)) in *.
    assert (shutdown_requested st1 = false) as Hflag1 by (now rewrite (F5 Hq4)).
    destruct (sleep_ticks_undisturbed (tick_signal p) (range CHECK_INTERVAL) st1
                Hflag1 Hq2) as (S1 & S2 & _).
    pose proof (quiet_sleep_ticks (range CHECK_INTERVAL) (tick_signal p) st1) as Hv2.
    destruct (sleep_ticks (range CHECK_INTERVAL) (tick_signal p) st1)
      as [[[]|e] st2]; simpl in *; [|discriminate].
    split; [exact S2|].
    apply view_fields in Hv2 as (_ & _ & Hs2).
    apply view_fields in Hv0 as (_ & _ & Hs0).
    unfold recipients. rewrite Hs2, F2, Hs0, fmap_app.
    now rewrite recipients_reply_mails.
  - erewrite bind_raise by (apply get_unread_messages_raise, Hl).
    rewrite Hq1. simpl.
    rewrite bind_emit. unfold time_sleep. rewrite bind_emit, Hq3. simpl.
    split; [exact Hflag|].
    unfold recipients. rewrite <- app_assoc, sent_mails_app. simpl.
    now rewrite !app_nil_r.
Qed.

Lemma main_loop_answers_all my_email characters fb script : forall st,
  REPLY_ONCE = false ->
  characters <> [] ->
  shutdown_requested st = false ->
  Forall undisturbed script ->
  Forall (fun p => Forall (answerable my_email) (listed p)) script ->
  let st' := snd (main_loop my_email characters fb script st) in
  fst (main_loop my_email characters fb script st) = Normal Running
  /\ shutdown_requested st' = false
  /\ recipients (out st')
     = recipients (out st) ++ (sender_of <$> concat (listed <$> script)).
Proof.
  induction script as [|p rest IH]; intros st HR Hne Hflag Hq Hall; simpl.
  - rewrite bind_get, Hflag. simpl. repeat split; [exact Hflag|].
    now rewrite app_nil_r.
  - rewrite bind_get, Hflag.
    rewrite (bind_fst _ _ _ _ (iteration_normal my_email characters fb p st)).
    inversion Hq as [|x xs Hp Hrest]; subst.
    inversion Hall as [|y ys Hap Harest]; subst.
    destruct (iteration_answers_all my_email characters fb p st HR Hne Hflag Hp Hap)
      as [Hflag1 Hrec1].
    destruct (IH _ HR Hne Hflag1 Hrest Harest) as (I1 & I2 & I3).
    split; [exact I1|]. split; [exact I2|].
    rewrite I3, Hrec1, fmap_app, app_assoc. reflexivity.
Qed.

(** X13: with the reply-once toggle off, over passes during which no
    signal arrives and all of whose listed messages are answerable
    (fetched, sender resolved, not empty and not the mailbox itself, send
    succeeding), every listed message is answered at every pass,
    whatever the ledger holds: a message that is listed again (the
    program never marks a message as read) is answered again at every
    such pass. *)
Theorem without_reply_once_every_pass_answers_again
    my_email characters fb script st :
  REPLY_ONCE = false ->
  characters <> [] ->
  shutdown_requested st = false ->
  Forall undisturbed script ->
  Forall (fun p => Forall (answerable my_email) (listed p)) script ->
  let st' := snd (main_loop my_email characters fb script st) in
  fst (main_loop my_email characters fb script st) = Normal Running
  /\ shutdown_requested st' = false
  /\ recipients (out st')
     = recipients (out st) ++ (sender_of <$> concat (listed <$> script)).
Proof. apply main_loop_answers_all. Qed.

(** ** Properties of the whole state that the program keeps *)

Lemma holds_ret J {A} (a : A) : holds J (ret a).
Proof. now intros st. Qed.

Lemma holds_raise J {A} e : holds J (@raise A e).
Proof. now intros st. Qed.

Lemma holds_call J {A} (o : outcome A) : holds J (call o).
Proof. now intros st. Qed.

Lemma holds_get J {A} (f : state -> A) : holds J (get f).
Proof. now intros st. Qed.

Lemma holds_bind J {A B} (m : M A) (k : A -> M B) :
  holds J m -> (forall a, holds J (k a)) -> holds J (bind m k).
Proof.
  intros Hm Hk st H. unfold bind. specialize (Hm st H).
  destruct (m st) as [[a|e] st1]; simpl in *; [|assumption].
  now apply Hk.
Qed.

Lemma holds_try J {A} (m : M A) (h : string -> M A) :
  holds J m -> (forall e, holds J (h e)) -> holds J (try_except m h).
Proof.
  intros Hm Hh st H. unfold try_except. specialize (Hm st H).
  destruct (m st) as [[a|e] st1]; simpl in *; [assumption|].
  now apply Hh.
Qed.

Section Frame.

Variable J : state -> Prop.
Hypothesis J_emit : forall e st, is_notice e = false -> J st -> J (add_out [e] st).
Hypothesis J_replied : forall r st, J st -> J (set_replied r st).
Hypothesis J_csv : forall f st, J st -> J (set_csv f st).
Hypothesis J_handler : forall st, J st -> J (snd (graceful_shutdown st)).

Lemma holds_emit e : is_notice e = false -> holds J (emit e).
Proof. intros He st H. now apply J_emit. Qed.

Lemma holds_signal b : holds J (signal b).
Proof. destruct b; simpl; [exact J_handler|apply holds_ret]. Qed.

Ltac holds_step :=
  first [ apply holds_ret | apply holds_raise | apply holds_call | apply holds_get
        | apply holds_signal
        | apply holds_emit; reflexivity
        | apply holds_bind; [|intros ?]
        | apply holds_try; [|intros ?] ].

Lemma holds_get_unread_messages p : holds J (get_unread_messages p).
Proof. unfold get_unread_messages. repeat holds_step. Qed.

Lemma holds_generate_ai_reply c : holds J (generate_ai_reply c).
Proof.
  unfold generate_ai_reply, signal_at.
  apply holds_try; [|intros ?; repeat holds_step].
  apply holds_bind; [holds_step|intros ?].
  apply holds_bind; [holds_step|intros [text|]]; holds_step.
Qed.

Lemma holds_reply_to my_email characters fb c :
  holds J (reply_to my_email characters fb c).
Proof.
  unfold reply_to, signal_at.
  apply holds_bind; [holds_step|intros ?].
  apply holds_bind; [holds_step|intros msg].
  apply holds_bind; [holds_step|intros replied].
  destruct (skip my_email replied (get_sender msg)); [holds_step|].
  apply holds_bind.
  { unfold choice. destruct (_ !! _); holds_step. }
  intros persona.
  apply holds_bind; [holds_step|intros ?].
  apply holds_bind; [apply holds_generate_ai_reply|intros ai_reply].
  apply holds_bind.
  { unfold send_reply, signal_at. repeat holds_step. }
  intros ?.
  apply holds_bind; [intros st H; now apply J_replied|intros ?].
  apply holds_bind; [holds_step|intros ?].
  apply holds_bind.
  { unfold save_replied_sender. apply holds_bind; [holds_step|intros f'].
    intros st H. now apply J_csv. }
  intros ?.
  apply holds_bind; [holds_step|intros ?].
  apply holds_emit. destruct (PyStr.falsy ai_reply); reflexivity.
Qed.

Lemma holds_for_messages my_email characters fb messages :
  holds J (for_messages (reply_to my_email characters fb) messages).
Proof.
  induction messages as [|c rest IH]; simpl; [holds_step|].
  apply holds_bind; [apply holds_reply_to|intros _; exact IH].
Qed.

Lemma holds_time_sleep n b : holds J (time_sleep n b).
Proof. unfold time_sleep. repeat holds_step. Qed.

Lemma holds_sleep_ticks ticks arrives : holds J (sleep_ticks ticks arrives).
Proof.
  induction ticks as [|k rest IH]; simpl; [holds_step|].
  apply holds_bind; [holds_step|intros []]; [holds_step|].
  apply holds_bind; [apply holds_time_sleep|intros _; exact IH].
Qed.

Lemma holds_iteration my_email characters fb p :
  holds J (iteration my_email characters fb p).
Proof.
  unfold iteration. apply holds_try.
  - apply holds_bind; [apply holds_get_unread_messages|intros messages].
    apply holds_bind; [apply holds_for_messages|intros _].
    apply holds_sleep_ticks.
  - intros e. apply holds_bind; [holds_step|intros _; apply holds_time_sleep].
Qed.

Lemma holds_main_loop my_email characters fb script :
  holds J (main_loop my_email characters fb script).
Proof.
  induction script as [|p rest IH]; simpl.
  - apply holds_bind; [holds_step|intros []]; holds_step.
  - apply holds_bind; [holds_step|intros []]; [holds_step|].
    apply holds_bind; [apply holds_iteration|intros _; exact IH].
Qed.

Lemma holds_load_characters dir : holds J (load_characters dir).
Proof.
  destruct dir as [entries|]; simpl; [|holds_step].
  generalize (@nil character).
  induction entries as [|[file content] rest IH]; intros acc; simpl; [holds_step|].
  destruct (PyStr.endswith file ".json"); [|apply IH].
  apply holds_bind; [holds_step|intros ?; apply IH].
Qed.

Lemma holds_main boot script : holds J (main boot script).
Proof.
  unfold main, load_replied_senders.
  apply holds_bind; [holds_step|intros ?].
  apply holds_bind; [apply holds_emit; now destruct REPLY_ONCE|intros ?].
  apply holds_bind; [holds_step|intros my_email].
  apply holds_bind; [repeat holds_step|intros replied].
  apply holds_bind; [intros st H; now apply J_replied|intros ?].
  apply holds_bind; [apply holds_load_characters|intros characters].
  apply holds_bind.
  { unfold load_fallback_message. destruct (reply_json boot); repeat holds_step. }
  intros fb.
  apply holds_bind; [destruct characters; repeat holds_step|intros characters'].
  apply holds_bind; [apply holds_main_loop|intros []]; repeat holds_step.
Qed.

End Frame.

Lemma notices_app evs1 evs2 : notices (evs1 ++ evs2) = (notices evs1 + notices evs2)%nat.
Proof. unfold notices. now rewrite List.filter_app, length_app. Qed.

Lemma noticed_main boot script : holds noticed (main boot script).
Proof.
  apply holds_main.
  - intros e st He H. unfold noticed in *. simpl.
    rewrite notices_app. unfold notices at 2. simpl. rewrite He. simpl.
    now rewrite Nat.add_0_r.
  - intros r st H. exact H.
  - intros f st H. exact H.
  - intros st H. unfold graceful_shutdown. rewrite bind_get.
    destruct (shutdown_requested st) eqn:Hflag; simpl; [exact H|].
    unfold noticed in *. simpl. rewrite Hflag in H.
    rewrite <- app_assoc, notices_app, H. reflexivity.
Qed.

(** X14: the shutdown is requested once.  At the first signal the
    handler prints its notice on the console, logs it and sets the flag,
    and touches nothing else; any later signal changes nothing; no pass
    of the loop clears the flag; and the log of a process holds the
    notice exactly once when the process ends with the flag set and not
    at all otherwise, however many signals arrive. *)
Theorem shutdown_is_requested_once :
  (forall st,
      shutdown_requested st = false ->
      signal true st
      = (Normal tt,
         {| replied_senders := replied_senders st;
            csv_file := csv_file st;
            shutdown_requested := true;
            out := out st
                   ++ [Printed (nl +:+ "Stopping bot gracefully... "
                                   +:+ "please wait up to 30s for cleanup.");
                       Log INFO "Graceful shutdown requested."] |}))
  /\ (forall b st, shutdown_requested st = true -> signal b st = (Normal tt, st))
  /\ (forall my_email characters fb p st,
         shutdown_requested st = true ->
         shutdown_requested (snd (iteration my_email characters fb p st)) = true)
  /\ (forall boot script f,
         let st' := snd (run_process boot script f []) in
         notices (out st') = if shutdown_requested st' then 1%nat else 0%nat).
Proof.
  split; [|split; [|split]].
  - intros st H. unfold signal, graceful_shutdown. rewrite bind_get, H. simpl.
    unfold emit, modify, bind, set_shutdown, add_out. simpl.
    now rewrite <- app_assoc.
  - intros b st H. destruct b; [|reflexivity].
    unfold signal, graceful_shutdown. now rewrite bind_get, H.
  - intros my_email characters fb p st H.
    apply (holds_iteration (fun s => shutdown_requested s = true)); try assumption.
    + intros e s _ Hs. exact Hs.
    + intros r s Hs. exact Hs.
    + intros f s Hs. exact Hs.
    + intros s Hs. change (shutdown_requested (snd (signal true s)) = true).
      now rewrite signal_sets.
  - intros boot script f st'.
    apply (noticed_main boot script (fresh_process f [])). reflexivity.
Qed.

(** ** Shutdown along a pass of the loop *)

Lemma sleep_ticks_normal ticks arrives : forall st,
  fst (sleep_ticks ticks arrives st) = Normal tt.
Proof.
  induction ticks as [|k rest IH]; intros st; simpl; [reflexivity|].
  rewrite bind_get. destruct (shutdown_requested st); [reflexivity|].
  rewrite (bind_fst _ _ _ _ (time_sleep_normal 1 (arrives k) st)). apply IH.
Qed.

Lemma for_messages_app_normal body before rest st st1 :
  for_messages body before st = (Normal tt, st1) ->
  for_messages body (before ++ rest) st = for_messages body rest st1.
Proof.
  revert st. induction before as [|b before IH]; intros st Hb; simpl in *.
  - now inversion Hb.
  - unfold bind in *. destruct (body b st) as [[u|e] st2]; [|discriminate].
    now apply IH.
Qed.

(** A pass whose messages are all processed without an exception is
    its responsive sleep, started in the state the messages leave. *)
Lemma iteration_reaches_sleep my_email characters fb p results cs st st1 :
  listing p = Normal (results, cs) ->
  for_messages (reply_to my_email characters fb) cs
               (snd (get_unread_messages p st)) = (Normal tt, st1) ->
  iteration my_email characters fb p st
  = sleep_ticks (range CHECK_INTERVAL) (tick_signal p) st1.
Proof.
  intros Hl Hcs. unfold iteration, try_except.
  rewrite (bind_fst _ _ _ _ (get_unread_messages_normal p st _ _ Hl)).
  erewrite bind_normal by exact Hcs.
  pose proof (sleep_ticks_normal (range CHECK_INTERVAL) (tick_signal p) st1) as Hn.
  destruct (sleep_ticks (range CHECK_INTERVAL) (tick_signal p) st1) as [[[]|e] st2];
    simpl in Hn; [reflexivity|discriminate].
Qed.

Lemma for_messages_keeps_flag my_email characters fb messages st :
  shutdown_requested st = true ->
  shutdown_requested
    (snd (for_messages (reply_to my_email characters fb) messages st)) = true.
Proof.
  apply (holds_for_messages (fun s => shutdown_requested s = true)).
  - intros e s _ Hs. exact Hs.
  - intros r s Hs. exact Hs.
  - intros f s Hs. exact Hs.
  - intros s Hs. change (shutdown_requested (snd (signal true s)) = true).
    now rewrite signal_sets.
Qed.

(** C9: in a pass of the [while] loop whose messages have been processed
    and whose responsive sleep starts with no shutdown requested, a
    shutdown requested during the [k]-th one-second tick ends the sleep
    with that tick: the pass sleeps [k + 1] one-second ticks and no more,
    not [CHECK_INTERVAL], and the loop is stopped at its next test,
    whatever the script would still bring.  A shutdown requested while a
    message of a pass is being processed, at any point of the loop body,
    does not interrupt that message: its reply is sent and its ledger row
    written as without the signal, the messages after it are processed,
    and the flag is seen at the first check of the sleep, which ends the
    pass without a tick, and then at the test of the loop, which stops. *)
Theorem shutdown_is_observed_at_the_next_checkpoint my_email characters fb :
  (forall p rest results cs st st1 k,
      shutdown_requested st = false ->
      listing p = Normal (results, cs) ->
      for_messages (reply_to my_email characters fb) cs
                   (snd (get_unread_messages p st)) = (Normal tt, st1) ->
      shutdown_requested st1 = false ->
      (k < Z.to_nat CHECK_INTERVAL)%nat ->
      (forall j, (j < k)%nat -> tick_signal p j = false) ->
      tick_signal p k = true ->
      let st' := snd (iteration my_email characters fb p st) in
      sleeps (out st') = sleeps (out st1) ++ repeat 1%nat (S k)
      /\ view st' = view st1
      /\ shutdown_requested st' = true
      /\ main_loop my_email characters fb (p :: rest) st = (Normal Stopped, st'))
  /\ (forall p rest results before c after st st1 st3 at_phase msg persona,
         shutdown_requested st = false ->
         listing p = Normal (results, before ++ c :: after) ->
         for_messages (reply_to my_email characters fb) before
                      (snd (get_unread_messages p st)) = (Normal tt, st1) ->
         interrupt c = Some at_phase ->
         fetched c = Normal msg ->
         skip my_email (replied_senders st1) (get_sender msg) = false ->
         characters !! (pick c mod length characters) = Some persona ->
         delivery c = Normal tt ->
         for_messages (reply_to my_email characters fb) after
                      (snd (reply_to my_email characters fb c st1)) = (Normal tt, st3) ->
         let st2 := snd (reply_to my_email characters fb c st1) in
         fst (reply_to my_email characters fb c st1) = Normal tt
         /\ view st2 = view (snd (reply_to my_email characters fb (uninterrupted c) st1))
         /\ (exists m, sent_mails (out st2) = sent_mails (out st1) ++ [m]
                       /\ mail_to m = PyStr.of_option (get_sender msg))
         /\ (exists row, csv_file st2
                         = Some (rows_of (csv_file st1)
                                 ++ [PyStr.of_option (get_sender msg) :: row]))
         /\ shutdown_requested st2 = true
         /\ iteration my_email characters fb p st = (Normal tt, st3)
         /\ main_loop my_email characters fb (p :: rest) st = (Normal Stopped, st3)).
Proof.
  split.
  - intros p rest results cs st st1 k Hflag Hl Hcs Hflag1 Hk Hbefore Hat st'.
    pose proof (iteration_reaches_sleep my_email characters fb p results cs st st1
                  Hl Hcs) as Hit.
    destruct (sleep_ticks_until (tick_signal p) (Z.to_nat CHECK_INTERVAL) 0 st1 k)
      as (H1 & H2 & H3); try assumption; try lia.
    { intros j Hj. apply Hbefore. lia. }
    rewrite Nat.sub_0_r in H3. fold (range CHECK_INTERVAL) in H1, H2, H3.
    unfold st'. rewrite Hit.
    split; [exact H3|]. split; [apply quiet_sleep_ticks|]. split; [exact H2|].
    rewrite (main_loop_next my_email characters fb p rest st Hflag)
      by (rewrite Hit; exact H1).
    rewrite Hit. now apply main_loop_requested.
  - intros p rest results before c after st st1 st3 at_phase msg persona
           Hflag Hl Hb Hi Hf Hs Hc Hd Hafter st2.
    destruct (reply_to_accepted my_email characters fb c st1 msg persona tt
                Hf Hs Hc Hd) as [Hr Hv].
    destruct (reply_to_accepted my_email characters fb (uninterrupted c) st1 msg
                persona tt Hf Hs Hc Hd) as [_ Hv'].
    assert (shutdown_requested st2 = true) as Hflag2.
    { unfold st2. rewrite (reply_to_flag _ _ _ _ _ msg persona tt Hf Hs Hc Hd), Hi.
      reflexivity. }
    assert (shutdown_requested st3 = true) as Hflag3.
    { pose proof (for_messages_keeps_flag my_email characters fb after st2 Hflag2)
        as H. fold st2 in Hafter. now rewrite Hafter in H. }
    assert (iteration my_email characters fb p st = (Normal tt, st3)) as Hit.
    { rewrite (iteration_reaches_sleep my_email characters fb p results
                 (before ++ c :: after) st st3 Hl).
      - now apply sleep_ticks_requested.
      - rewrite (for_messages_app_normal _ _ _ _ _ Hb). simpl.
        rewrite (bind_fst _ _ _ _ Hr). exact Hafter. }
    split; [exact Hr|]. split; [now rewrite Hv'|].
    unfold view in Hv. inversion Hv as [[HR HF HS]].
    split; [eexists; split; [exact HS|reflexivity]|].
    split; [eexists; exact HF|].
    split; [exact Hflag2|]. split; [exact Hit|].
    rewrite (main_loop_next my_email characters fb p rest st Hflag)
      by (now rewrite Hit).
    rewrite Hit. now apply main_loop_requested.
Qed.
End Bot.

(** ** The string operations on examples *)

Example strip_spaces_and_newline :
  PyStr.strip ("  hi there" +:+ nl +:+ " ") = "hi there".
Proof. reflexivity. Qed.

Example strip_no_break_space :
  PyStr.strip (String "194" (String "160" (String "009" "x "))) = "x".
Proof. reflexivity. Qed.

Example strip_blank : PyStr.strip ("   " +:+ nl) = "".
Proof. reflexivity. Qed.

Example endswith_json :
  PyStr.endswith "spock.json" ".json" = true
  /\ PyStr.endswith "json" ".json" = false
  /\ PyStr.endswith "notes.txt" ".json" = false.
Proof. repeat split; reflexivity. Qed.

Example lower_from : PyStr.lower "FrOm" = "from".
Proof. reflexivity. Qed.

Example get_sender_letter :
  get_sender Sample.parseaddr (Sample.letter "a@x.org" "Hello") = Some "a@x.org".
Proof. reflexivity. Qed.

(** ** The statements at concrete inputs *)

Import Sample.

Local Abbreviation me := "me@example.org" (only parsing).
Local Abbreviation body := (reply_to true parseaddr me [spock] away) (only parsing).
Local Abbreviation one_pass := (iteration true 30 parseaddr me [spock] away) (only parsing).
Local Abbreviation loop := (main_loop true 30 parseaddr me [spock] away) (only parsing).
Local Abbreviation accepted c st :=
  (fetched c = Normal (letter "a@x.org" "Hello")
   /\ skip true me (replied_senders st)
           (get_sender parseaddr (letter "a@x.org" "Hello")) = false
   /\ [spock] !! (pick c mod length [spock]) = Some spock) (only parsing).


(** C2, the claim as stated, at a concrete input: the send fails for the
    first of two messages of a pass.  The second message, which gets its
    reply when it is alone in a pass, is not processed: no mail goes out,
    the text generator is called once only, and the pass ends in the
    five-second delay. *)
Lemma send_failure_skips_later_messages :
  let failing := unread "a@x.org" (Normal (Some "Hi")) (Raise "HttpError 500") in
  let later := unread "b@x.org" (Normal (Some "Hi")) (Normal tt) in
  let st := snd (one_pass (pass [failing; later]) idle) in
  recipients (out (snd (one_pass (pass [later]) idle))) = ["b@x.org"]
  /\ recipients (out st) = []
  /\ prompts (out st) = [spock]
  /\ sleeps (out st) = [5]
  /\ csv_file st = None.
Proof. vm_compute. repeat split. Qed.

(** C2 (amended) at a concrete input: a reply to [b@x.org], then a failing
    send to [a@x.org], then a message that is left unprocessed. *)
Lemma send_failure_witness :
  let first := unread "b@x.org" (Normal (Some "Hi")) (Normal tt) in
  let failing := unread "a@x.org" (Normal (Some "Hi")) (Raise "HttpError 500") in
  let later := unread "c@x.org" (Normal (Some "Hi")) (Normal tt) in
  let p := pass [first; failing; later] in
  let st1 := snd (for_messages body [first] (snd (get_unread_messages p idle))) in
  (shutdown_requested idle = false
   /\ listing p = Normal ("{'messages': [...]}", [first] ++ failing :: [later])
   /\ for_messages body [first] (snd (get_unread_messages p idle)) = (Normal tt, st1)
   /\ accepted failing st1
   /\ delivery failing = Raise "HttpError 500")
  /\ fst (body failing st1) = Raise "HttpError 500"
  /\ view (snd (body failing st1)) = view st1
  /\ one_pass p idle
     = time_sleep 5 false
         (add_out [Log ERROR "Runtime error: HttpError 500"] (snd (body failing st1)))
  /\ view (snd (one_pass p idle)) = view st1
  /\ loop [p; pass []] idle = loop [pass []] (snd (one_pass p idle)).
Proof.
  intros first failing later p st1.
  assert (for_messages body [first] (snd (get_unread_messages p idle)) = (Normal tt, st1))
    as Hbefore by (vm_compute; reflexivity).
  assert (skip true me (replied_senders st1)
               (get_sender parseaddr (letter "a@x.org" "Hello")) = false)
    as Hskip by (vm_compute; reflexivity).
  pose proof (send_failure_abandons_the_pass true 30 parseaddr me [spock] away p
                "{'messages': [...]}" [first] failing [later] [pass []] idle st1
                (letter "a@x.org" "Hello") spock "HttpError 500"
                eq_refl eq_refl Hbefore eq_refl Hskip eq_refl eq_refl) as H.
  split; [|exact H].
  repeat split; assumption.
Defined.

(** C3, the claim as stated, at a concrete input: the completion call
    fails; the body of the mail sent is not the fallback message verbatim,
    the signature line follows it. *)
Lemma fallback_body_is_not_verbatim :
  let c := unread "a@x.org" (Raise "Connection refused") (Normal tt) in
  let st := snd (body c idle) in
  fst (generate_ai_reply c idle) = Normal None
  /\ mail_body <$> sent_mails (out st) = [away +:+ nl +:+ nl +:+ "-Spock."]
  /\ mail_body <$> sent_mails (out st) <> [away].
Proof. vm_compute. repeat split. discriminate. Qed.

(** C3 (amended) at a concrete input. *)
Lemma generator_failure_witness :
  let c := unread "a@x.org" (Raise "Connection refused") (Normal tt) in
  let st := snd (body c idle) in
  (accepted c idle
   /\ ((exists e, completion c = Raise e) \/ completion c = Normal None)
   /\ delivery c = Normal tt)
  /\ fst (body c idle) = Normal tt
  /\ sent_mails (out st)
     = sent_mails (out idle)
       ++ [{| mail_to := "a@x.org";
              mail_subject := "Re: Automated Reply - OOO Automated Reply";
              mail_from := "secure.test@debagnik.in";
              mail_body := away +:+ signature spock |}]
  /\ csv_file st
     = Some (rows_of (csv_file idle)
             ++ [["a@x.org"; "2024-05-01T09:30:00+00:00"; "Spock"; "Yes"]]).
Proof.
  intros c st.
  assert ((exists e, completion c = Raise e) \/ completion c = Normal None) as Hfail
    by (left; exists "Connection refused"; reflexivity).
  pose proof (generator_failure_sends_fallback_signed true parseaddr me [spock] away
                c idle (letter "a@x.org" "Hello") spock
                eq_refl eq_refl eq_refl Hfail eq_refl) as H.
  split; [|exact H].
  repeat split. exact Hfail.
Defined.

(** C4, the claim as stated, at a concrete input: the completion call
    succeeds and [generate_ai_reply] returns a string, the empty one, with
    no error logged; the ledger row says [fallback_used = "Yes"] and the
    mail carries the fallback message. *)
Lemma blank_success_uses_fallback :
  let c := unread "a@x.org" (Normal (Some "   ")) (Normal tt) in
  let st := snd (body c idle) in
  generate_ai_reply c idle = (Normal (Some ""), idle)
  /\ csv_file st
     = Some [csv_header; ["a@x.org"; "2024-05-01T09:30:00+00:00"; "Spock"; "Yes"]]
  /\ mail_body <$> sent_mails (out st) = [away +:+ signature spock].
Proof. vm_compute. repeat split. Qed.

(** C4 (amended) at a concrete input. *)
Lemma generator_success_witness :
  let c := unread "a@x.org" (Normal (Some (" Live long and prosper." +:+ nl)))
                  (Normal tt) in
  let st := snd (body c idle) in
  (accepted c idle
   /\ completion c = Normal (Some (" Live long and prosper." +:+ nl))
   /\ PyStr.strip (" Live long and prosper." +:+ nl) <> ""
   /\ delivery c = Normal tt)
  /\ fst (body c idle) = Normal tt
  /\ sent_mails (out st)
     = sent_mails (out idle)
       ++ [{| mail_to := "a@x.org";
              mail_subject := "Re: Automated Reply - OOO Automated Reply";
              mail_from := "secure.test@debagnik.in";
              mail_body := PyStr.strip (" Live long and prosper." +:+ nl)
                           +:+ signature spock |}]
  /\ csv_file st
     = Some (rows_of (csv_file idle)
             ++ [["a@x.org"; "2024-05-01T09:30:00+00:00"; "Spock"; "No"]]).
Proof.
  intros c st.
  assert (PyStr.strip (" Live long and prosper." +:+ nl) <> "") as Hne
    by (vm_compute; discriminate).
  pose proof (generator_success_sends_stripped_output_signed true parseaddr me [spock]
                away c idle (letter "a@x.org" "Hello") spock
                (" Live long and prosper." +:+ nl)
                eq_refl eq_refl eq_refl eq_refl Hne eq_refl) as H.
  split; [|exact H].
  repeat split. exact Hne.
Defined.

(** C10 at a concrete input: the completion call answers blanks. *)
Lemma blank_completion_witness :
  let c := unread "a@x.org" (Normal (Some ("   " +:+ nl))) (Normal tt) in
  let failed := with_completion (Raise "Connection refused") c in
  let st := snd (body c idle) in
  (completion c = Normal (Some ("   " +:+ nl)) /\ PyStr.strip ("   " +:+ nl) = ""
   /\ accepted c idle /\ delivery c = Normal tt)
  /\ (fst (body c idle) = fst (body failed idle)
      /\ view st = view (snd (body failed idle)))
  /\ sent_mails (out st)
     = sent_mails (out idle)
       ++ [{| mail_to := "a@x.org";
              mail_subject := "Re: Automated Reply - OOO Automated Reply";
              mail_from := "secure.test@debagnik.in";
              mail_body := away +:+ signature spock |}]
  /\ csv_file st
     = Some (rows_of (csv_file idle)
             ++ [["a@x.org"; "2024-05-01T09:30:00+00:00"; "Spock"; "Yes"]]).
Proof.
  intros c failed st.
  destruct (blank_completion_is_a_generation_failure true parseaddr me [spock] away
              c idle ("   " +:+ nl) eq_refl eq_refl) as [Hsame Hfallback].
  split; [repeat split|].
  split; [exact (Hsame "Connection refused")|].
  exact (Hfallback (letter "a@x.org" "Hello") spock eq_refl eq_refl eq_refl eq_refl).
Defined.

(** C5, the claim as stated, at a concrete input: a directory with a
    malformed file between two good ones.  The claim has the two good
    personas returned and a warning logged; [load_characters] raises
    instead, and [main] ends with the exception, no warning in the log. *)
Lemma malformed_persona_is_not_skipped :
  let entries := [("spock.json", Normal spock);
                  ("broken.json", Raise "Expecting value: line 1 column 1 (char 0)");
                  ("notes.txt", Raise "not read");
                  ("data.json", Normal spock)] in
  let run := run_process true 30 parseaddr boot_malformed [pass []] None [] in
  characters_dir boot_malformed = Some entries
  /\ json_personas entries = [spock; spock]
  /\ load_characters (Some entries) idle
     = (Raise "Expecting value: line 1 column 1 (char 0)", idle)
  /\ load_characters (Some entries) idle <> (Normal (json_personas entries), idle)
  /\ fst run = Raise "Expecting value: line 1 column 1 (char 0)"
  /\ out (snd run)
     = [Log INFO "Starting Gmail Auto Reply Bot (Windows)";
        Printed ("Gmail Auto Reply Bot started. Press Ctrl+C to stop. "
               +:+ "(Reply once per sender: True)")].
Proof. vm_compute. repeat split. discriminate. Qed.

(** C5 (amended) at concrete inputs: a directory whose [*.json] entries
    load, and the directory with the malformed file. *)
Lemma malformed_persona_witness :
  let good := [("spock.json", Normal spock); ("notes.txt", Raise "not read")] in
  let bad := "Expecting value: line 1 column 1 (char 0)" in
  let run := run_process true 30 parseaddr boot_malformed [pass []] None [] in
  (Forall loads good
   /\ Forall loads [("spock.json", Normal spock)]
   /\ PyStr.endswith "broken.json" ".json" = true
   /\ auth boot_malformed = Normal me)
  /\ load_characters (Some good) idle = (Normal [spock], idle)
  /\ load_characters (characters_dir boot_malformed) idle = (Raise bad, idle)
  /\ fst run = Raise bad
  /\ out (snd run)
     = [] ++ [Log INFO "Starting Gmail Auto Reply Bot (Windows)";
              Printed ("Gmail Auto Reply Bot started. Press Ctrl+C to stop. "
                     +:+ "(Reply once per sender: " +:+ PyStr.of_bool true +:+ ")")]
  /\ csv_file (snd run) = None.
Proof.
  intros good bad run.
  assert (Forall loads [("spock.json", Normal spock)]) as Hbefore.
  { constructor; [|constructor]. intros _. now exists spock. }
  assert (Forall loads good) as Hgood.
  { constructor; [intros _; now exists spock|].
    constructor; [|constructor]. intros H. vm_compute in H. discriminate. }
  destruct (malformed_persona_aborts_startup true 30 parseaddr) as (A & B & C).
  split; [repeat split; assumption|].
  split; [exact (A good idle Hgood)|].
  split.
  - exact (B [("spock.json", Normal spock)] "broken.json" bad
             [("notes.txt", Raise "not read"); ("data.json", Normal spock)] idle
             Hbefore eq_refl).
  - exact (C boot_malformed [pass []] None [] me [("spock.json", Normal spock)]
             "broken.json" bad
             [("notes.txt", Raise "not read"); ("data.json", Normal spock)]
             eq_refl eq_refl Hbefore eq_refl).
Defined.

(** C6, the claim as stated, at a concrete input: a message whose subject
    line is [Hello] is answered under the subject
    [Re: Automated Reply - OOO Automated Reply], not
    [Re: Hello - OOO Automated Reply]. *)
Lemma reply_subject_ignores_original :
  let c := unread "a@x.org" (Normal (Some "Hi")) (Normal tt) in
  let st := snd (body c idle) in
  fetched c = Normal (letter "a@x.org" "Hello")
  /\ original_subject (letter "a@x.org" "Hello") = "Hello"
  /\ mail_subject <$> sent_mails (out st)
     = ["Re: Automated Reply - OOO Automated Reply"]
  /\ mail_subject <$> sent_mails (out st)
     <> ["Re: " +:+ original_subject (letter "a@x.org" "Hello")
         +:+ " - OOO Automated Reply"].
Proof. vm_compute. repeat split. discriminate. Qed.

(** C7 at a concrete input: three replies recorded, two of them to the
    same sender (as with the reply-once toggle off). *)
Lemma ledger_round_trip_witness :
  let records := [("a@x.org", Some "Spock", false, "2024-05-01T09:30:00+00:00");
                  ("b@x.org", None, true, "2024-05-01T09:31:00+00:00");
                  ("a@x.org", Some "Spock", true, "2024-05-01T09:32:00+00:00")] in
  let st' := snd (record_all records idle) in
  csv_file idle = None
  /\ csv_file st'
     = Some [csv_header;
             ["a@x.org"; "2024-05-01T09:30:00+00:00"; "Spock"; "No"];
             ["b@x.org"; "2024-05-01T09:31:00+00:00"; ""; "Yes"];
             ["a@x.org"; "2024-05-01T09:32:00+00:00"; "Spock"; "Yes"]]
  /\ load_replied_senders st'
     = (Normal (list_to_set ["a@x.org"; "b@x.org"; "a@x.org"]), st')
  /\ ("b@x.org" ∈ ({["a@x.org"; "b@x.org"]} : gset string)
      <-> "b@x.org" ∈ ["a@x.org"; "b@x.org"; "a@x.org"])
  /\ load_replied_senders idle = (Normal ∅, idle).
Proof.
  intros records st'.
  destruct (ledger_round_trip records idle eq_refl) as (A & B & C).
  split; [reflexivity|]. split; [reflexivity|]. split; [exact A|].
  split; [|exact C].
  apply (B "b@x.org"). vm_compute. reflexivity.
Defined.

(** C8, the claim as stated, at a concrete input: with a check interval
    of thirty seconds, a pass whose query lists no message sleeps thirty
    one-second ticks; the pass whose query fails sleeps once, five seconds,
    and no tick. *)
Lemma query_failure_skips_sleeping_phase :
  let st := snd (one_pass failed_query idle) in
  sleeps (out (snd (one_pass (pass []) idle))) = repeat 1%nat 30
  /\ sleeps (out st) = [5%nat]
  /\ sleeps (out st) <> repeat 1%nat 30
  /\ out st = [Log ERROR "Runtime error: HttpError 503"; Sleep 5].
Proof. vm_compute. repeat split. discriminate. Qed.

(** C8 (amended) at a concrete input. *)
Lemma query_failure_witness :
  let st' := snd (one_pass failed_query idle) in
  (shutdown_requested idle = false /\ listing failed_query = Raise "HttpError 503")
  /\ one_pass failed_query idle
     = time_sleep 5 (delay_signal failed_query)
         (add_out [Log ERROR "Runtime error: HttpError 503"]
                  (snd (signal (listing_signal failed_query) idle)))
  /\ view st' = view idle
  /\ prompts (out st') = prompts (out idle)
  /\ sleeps (out st') = sleeps (out idle) ++ [5%nat]
  /\ loop [failed_query; pass []] idle = loop [pass []] st'.
Proof.
  intros st'.
  pose proof (query_failure_takes_the_fixed_delay true 30 parseaddr me [spock] away
                failed_query [pass []] idle "HttpError 503" eq_refl eq_refl) as H.
  split; [split; reflexivity|exact H].
Defined.

(** ** The further properties at concrete inputs *)

Import Scenario.

(** X1 at a concrete input: a pass that lists a message of the mailbox to
    itself and a message of [a@x.org]. *)
Lemma no_reply_to_own_address_witness :
  auth boot = Normal me
  /\ recipients (out (snd (run_process true 30 parseaddr boot own_and_other None [])))
     = ["a@x.org"]
  /\ Forall (fun m => mail_to m <> me /\ mail_to m <> ""
                      /\ mail_from m = "secure.test@debagnik.in")
            (sent_mails (out (snd (run_process true 30 parseaddr boot own_and_other
                                               None [])))).
Proof.
  split; [reflexivity|]. split; [vm_compute; reflexivity|].
  exact (no_reply_to_own_or_empty_address true 30 parseaddr boot own_and_other None me
           eq_refl).
Defined.


(** X6 at a concrete input: two records on a ledger file that exists and
    is empty. *)
Lemma empty_ledger_file_witness :
  let st' := snd (record_all two_records empty_file) in
  csv_file empty_file = Some []
  /\ csv_file st'
     = Some [ ["a@x.org"; "2024-05-01T09:30:00+00:00"; "Spock"; "No"];
              ["b@x.org"; "2024-05-01T09:31:00+00:00"; ""; "Yes"] ]
  /\ load_replied_senders st' = (Normal (list_to_set ["b@x.org"]), st').
Proof.
  intros st'. split; [reflexivity|].
  exact (empty_ledger_file_forgets_first_sender
           ("a@x.org", Some "Spock", false, "2024-05-01T09:30:00+00:00")
           [("b@x.org", None, true, "2024-05-01T09:31:00+00:00")] empty_file eq_refl).
Defined.

(** X7 at concrete inputs: a pass whose query fails, a pass whose send
    fails and a pass whose fetch fails all end normally, and so does the
    loop over them. *)
Lemma errors_never_leave_the_loop_witness :
  fst (one_pass failed_query idle) = Normal tt
  /\ fst (one_pass (pass [unread "a@x.org" (Normal (Some "Hi")) (Raise "HttpError 500")])
                    idle) = Normal tt
  /\ fst (one_pass (pass [unfetched]) idle) = Normal tt
  /\ fst (loop [failed_query; pass [unfetched]] idle) = Normal Running.
Proof.
  destruct (errors_never_leave_the_loop true 30 parseaddr) as (A & B).
  split; [exact (A me [spock] away failed_query idle)|].
  split; [exact (A me [spock] away _ idle)|].
  split; [exact (A me [spock] away _ idle)|].
  destruct (B me [spock] away [failed_query; pass [unfetched]] idle) as [H|H];
    [vm_compute in H; discriminate|exact H].
Defined.

(** X8 at a concrete input: a message with two From headers, the first
    one in capitals, after a Subject header. *)
Lemma get_sender_witness :
  (Forall not_from [ {| h_name := "Subject"; h_value := "Hello" |} ]
   /\ PyStr.lower "FROM" = "from")
  /\ get_sender parseaddr two_froms = Some "a@x.org"
  /\ (get_sender parseaddr {| headers := [ {| h_name := "Subject"; h_value := "Hello" |} ] |}
      = None
      <-> Forall not_from [ {| h_name := "Subject"; h_value := "Hello" |} ]).
Proof.
  assert (Forall not_from [ {| h_name := "Subject"; h_value := "Hello" |} ]) as Hnot.
  { constructor; [|constructor]. unfold not_from. vm_compute. discriminate. }
  destruct (get_sender_reads_the_first_from_header parseaddr) as [A B].
  split; [split; [exact Hnot|reflexivity]|].
  split.
  - exact (B [ {| h_name := "Subject"; h_value := "Hello" |} ]
             {| h_name := "FROM"; h_value := "a@x.org" |}
             [ {| h_name := "From"; h_value := "b@x.org" |} ] Hnot eq_refl).
  - exact (A {| headers := [ {| h_name := "Subject"; h_value := "Hello" |} ] |}).
Defined.

(** X9 at a concrete input: a message without a From header. *)
Lemma unanswerable_message_witness :
  let st' := snd (body anonymous idle) in
  (fetched anonymous
   = Normal {| headers := [ {| h_name := "Subject"; h_value := "Hello" |} ] |}
   /\ get_sender parseaddr
        {| headers := [ {| h_name := "Subject"; h_value := "Hello" |} ] |} = None)
  /\ body anonymous idle = signal_at AtFetch anonymous idle
  /\ view st' = view idle
  /\ prompts (out st') = prompts (out idle).
Proof.
  intros st'. split; [split; reflexivity|].
  exact (unanswerable_message_is_dropped true parseaddr me [spock] away anonymous idle
           {| headers := [ {| h_name := "Subject"; h_value := "Hello" |} ] |}
           eq_refl (or_introl eq_refl)).
Defined.

(** X10 at a concrete input: a reply to [b@x.org], then a message whose
    fetch fails, then a message that is left unprocessed. *)
Lemma fetch_failure_witness :
  let first := unread "b@x.org" (Normal (Some "Hi")) (Normal tt) in
  let later := unread "c@x.org" (Normal (Some "Hi")) (Normal tt) in
  let p := pass [first; unfetched; later] in
  let st1 := snd (for_messages body [first] (snd (get_unread_messages p idle))) in
  (shutdown_requested idle = false
   /\ listing p = Normal ("{'messages': [...]}", [first] ++ unfetched :: [later])
   /\ for_messages body [first] (snd (get_unread_messages p idle)) = (Normal tt, st1)
   /\ fetched unfetched = Raise "HttpError 404")
  /\ recipients (out (snd (one_pass p idle))) = ["b@x.org"]
  /\ one_pass p idle
     = time_sleep 5 (delay_signal p)
         (add_out [Log ERROR "Runtime error: HttpError 404"]
                  (snd (signal_at AtFetch unfetched st1)))
  /\ view (snd (one_pass p idle)) = view st1
  /\ loop [p; pass []] idle = loop [pass []] (snd (one_pass p idle)).
Proof.
  intros first later p st1.
  assert (for_messages body [first] (snd (get_unread_messages p idle)) = (Normal tt, st1))
    as Hbefore by (vm_compute; reflexivity).
  split; [repeat split; exact Hbefore|].
  split; [vm_compute; reflexivity|].
  exact (fetch_failure_abandons_the_pass true 30 parseaddr me [spock] away p
           "{'messages': [...]}" [first] unfetched [later] [pass []] idle st1
           "HttpError 404" eq_refl eq_refl Hbefore eq_refl).
Defined.

(** X11 at concrete inputs: a check interval of thirty seconds with no
    signal; a check interval of minus five seconds; a loop whose shutdown
    is requested. *)
Lemma responsive_sleep_witness :
  (shutdown_requested idle = false /\ (-5 <= 0)%Z /\ shutdown_requested stopping = true)
  /\ (let st' := snd (sleep_ticks (range 30) (fun _ => false) idle) in
      shutdown_requested st' = false
      /\ sleeps (out st') = sleeps (out idle) ++ repeat 1%nat (Z.to_nat 30))
  /\ (exists n, (n <= Z.to_nat 30)%nat
                /\ sleeps (out (snd (sleep_ticks (range 30) third_tick idle)))
                   = sleeps (out idle) ++ repeat 1%nat n)
  /\ snd (sleep_ticks (range (-5)) third_tick idle) = idle
  /\ snd (sleep_ticks (range 30) third_tick stopping) = stopping.
Proof.
  assert (-5 <= 0)%Z as Hle by lia.
  split; [repeat split; exact Hle|].
  destruct (responsive_sleep_is_bounded 30 (fun _ => false) idle) as (_ & A & _).
  destruct (responsive_sleep_is_bounded 30 third_tick idle) as (B & _).
  destruct (responsive_sleep_is_bounded (-5) third_tick idle) as (_ & _ & C & _).
  destruct (responsive_sleep_is_bounded 30 third_tick stopping) as (_ & _ & _ & D).
  split; [exact (A eq_refl (fun _ => eq_refl))|].
  split; [exact B|]. split; [exact (C Hle)|exact (D eq_refl)].
Defined.

(** X12 at a concrete input: with the reply-once toggle on, two messages
    of distinct senders in one pass of a loop that has answered nobody. *)
Lemma every_answerable_message_witness :
  let cs := [unread "a@x.org" (Normal (Some "Hi")) (Normal tt);
             unread "b@x.org" (Raise "timeout") (Normal tt)] in
  let st' := snd (for_messages body cs idle) in
  ([spock] <> [] /\ Forall (answerable parseaddr me) cs
   /\ NoDup (sender_of parseaddr <$> cs))
  /\ fst (for_messages body cs idle) = Normal tt
  /\ sent_mails (out st')
     = sent_mails (out idle)
       ++ ((fun c => reply_mail away c (sender_of parseaddr c) (drawn [spock] c)) <$> cs)
  /\ csv_file st'
     = extended (csv_file idle)
                ((fun c => reply_row c (sender_of parseaddr c) (drawn [spock] c)) <$> cs)
  /\ replied_senders st'
     = list_to_set (sender_of parseaddr <$> cs) ∪ replied_senders idle
  /\ recipients (out st') = ["a@x.org"; "b@x.org"]
  /\ shutdown_requested st' = shutdown_requested idle.
Proof.
  intros cs st'.
  assert ([spock] <> []) as Hne by discriminate.
  assert (Forall (answerable parseaddr me) cs) as Hall.
  { constructor; [|constructor; [|constructor]].
    - exists (letter "a@x.org" "Hello"), "a@x.org".
      repeat split; try reflexivity; discriminate.
    - exists (letter "b@x.org" "Hello"), "b@x.org".
      repeat split; try reflexivity; discriminate. }
  assert (NoDup (sender_of parseaddr <$> cs)) as Hnd.
  { change (NoDup ["a@x.org"; "b@x.org"]).
    apply NoDup_cons. split; [|apply NoDup_singleton].
    intros H. apply list_elem_of_singleton in H. discriminate. }
  destruct (every_answerable_message_is_answered true parseaddr me [spock] away cs idle
              Hne Hall) as (A & B & C & D & E).
  { intros _. split; [exact Hnd|]. intros s _ H. now apply elem_of_empty in H. }
  split; [repeat split; assumption|].
  split; [exact A|]. split; [exact B|]. split; [exact C|]. split; [exact D|].
  split; [vm_compute; reflexivity|].
  apply E. repeat constructor.
Defined.

(** X13 at a concrete input: with the reply-once toggle off, three passes
    list the same unread message of a sender the ledger already holds. *)
Lemma every_pass_answers_again_witness :
  let st' := snd (main_loop false 30 parseaddr me [spock] away same_message_thrice
                            replied_a) in
  (false = false /\ [spock] <> [] /\ shutdown_requested replied_a = false
   /\ Forall undisturbed same_message_thrice
   /\ Forall (fun p => Forall (answerable parseaddr me) (listed p)) same_message_thrice)
  /\ fst (main_loop false 30 parseaddr me [spock] away same_message_thrice replied_a)
     = Normal Running
  /\ shutdown_requested st' = false
  /\ recipients (out st')
     = recipients (out replied_a)
       ++ (sender_of parseaddr <$> concat (listed <$> same_message_thrice))
  /\ recipients (out st') = ["a@x.org"; "a@x.org"; "a@x.org"].
Proof.
  intros st'.
  assert ([spock] <> []) as Hne by discriminate.
  assert (undisturbed (pass [unread "a@x.org" (Normal (Some "Hi")) (Normal tt)])) as Hu.
  { repeat split. simpl. repeat constructor. }
  assert (Forall (answerable parseaddr me)
                 (listed (pass [unread "a@x.org" (Normal (Some "Hi")) (Normal tt)])))
    as Ha.
  { constructor; [|constructor].
    exists (letter "a@x.org" "Hello"), "a@x.org".
    repeat split; try reflexivity; discriminate. }
  assert (Forall undisturbed same_message_thrice) as Hus
    by (constructor; [exact Hu|constructor; [exact Hu|constructor; [exact Hu|constructor]]]).
  assert (Forall (fun p => Forall (answerable parseaddr me) (listed p))
                 same_message_thrice) as Has
    by (constructor; [exact Ha|constructor; [exact Ha|constructor; [exact Ha|constructor]]]).
  destruct (without_reply_once_every_pass_answers_again false 30 parseaddr me [spock]
              away same_message_thrice replied_a eq_refl Hne eq_refl Hus Has)
    as (A & B & C).
  split; [repeat split; assumption|].
  split; [exact A|]. split; [exact B|]. split; [exact C|].
  vm_compute. reflexivity.
Defined.

(** X14 at concrete inputs: a first and a second signal, a pass of a loop
    whose shutdown is requested, a process that receives a signal during
    the query and another during the sleep, and a process that receives
    none. *)
Lemma shutdown_is_requested_once_witness :
  let signalled := snd (run_process true 30 parseaddr boot [twice_signalled] None []) in
  let unsignalled := snd (run_process true 30 parseaddr boot [pass []] None []) in
  (shutdown_requested idle = false /\ shutdown_requested stopping = true)
  /\ signal true idle
     = (Normal tt,
        {| replied_senders := replied_senders idle;
           csv_file := csv_file idle;
           shutdown_requested := true;
           out := out idle
                  ++ [Printed (nl +:+ "Stopping bot gracefully... "
                                  +:+ "please wait up to 30s for cleanup.");
                      Log INFO "Graceful shutdown requested."] |})
  /\ signal true stopping = (Normal tt, stopping)
  /\ shutdown_requested (snd (one_pass (pass []) stopping)) = true
  /\ (notices (out signalled) = if shutdown_requested signalled then 1%nat else 0%nat)
  /\ (notices (out unsignalled) = if shutdown_requested unsignalled then 1%nat else 0%nat)
  /\ shutdown_requested signalled = true
  /\ shutdown_requested unsignalled = false.
Proof.
  intros signalled unsignalled.
  destruct (shutdown_is_requested_once true 30 parseaddr) as (A & B & C & D).
  split; [split; reflexivity|].
  split; [exact (A idle eq_refl)|].
  split; [exact (B true stopping eq_refl)|].
  split; [exact (C me [spock] away (pass []) stopping eq_refl)|].
  split; [exact (D boot [twice_signalled] None)|].
  split; [exact (D boot [pass []] None)|].
  split; vm_compute; reflexivity.
Defined.

(** ** Reply-once and shutdown at concrete inputs *)


(** C9 at concrete inputs: with a check interval of thirty seconds, a pass
    that answers one message and receives a signal during the third tick
    of its sleep; and a pass of three messages that receives a signal
    while the mail of the second is being sent. *)
Lemma shutdown_witness :
  let cs := [unread "a@x.org" (Normal (Some "Hi")) (Normal tt)] in
  let slept1 := snd (for_messages body cs
                       (snd (get_unread_messages signalled_in_sleep idle))) in
  let first := unread "b@x.org" (Normal (Some "Hi")) (Normal tt) in
  let c := interrupted AtSend (unread "a@x.org" (Normal (Some "Hi")) (Normal tt)) in
  let later := unread "c@x.org" (Normal (Some "Hi")) (Normal tt) in
  let st1 := snd (for_messages body [first]
                    (snd (get_unread_messages signalled_in_send idle))) in
  let st2 := snd (body c st1) in
  let st3 := snd (for_messages body [later] st2) in
  (shutdown_requested idle = false
   /\ listing signalled_in_sleep = Normal ("{'messages': [...]}", cs)
   /\ for_messages body cs (snd (get_unread_messages signalled_in_sleep idle))
      = (Normal tt, slept1)
   /\ shutdown_requested slept1 = false
   /\ (2 < Z.to_nat 30)%nat
   /\ tick_signal signalled_in_sleep 0 = false
   /\ tick_signal signalled_in_sleep 1 = false
   /\ tick_signal signalled_in_sleep 2 = true)
  /\ (sleeps (out (snd (one_pass signalled_in_sleep idle)))
      = sleeps (out slept1) ++ repeat 1%nat 3
      /\ view (snd (one_pass signalled_in_sleep idle)) = view slept1
      /\ shutdown_requested (snd (one_pass signalled_in_sleep idle)) = true
      /\ loop [signalled_in_sleep; pass [later]] idle
         = (Normal Stopped, snd (one_pass signalled_in_sleep idle)))
  /\ sleeps (out (snd (one_pass signalled_in_sleep idle))) = [1%nat; 1%nat; 1%nat]
  /\ (listing signalled_in_send
      = Normal ("{'messages': [...]}", [first] ++ c :: [later])
      /\ for_messages body [first] (snd (get_unread_messages signalled_in_send idle))
         = (Normal tt, st1)
      /\ interrupt c = Some AtSend
      /\ accepted c st1
      /\ delivery c = Normal tt
      /\ for_messages body [later] st2 = (Normal tt, st3))
  /\ (fst (body c st1) = Normal tt
      /\ view st2 = view (snd (body (uninterrupted c) st1))
      /\ (exists m, sent_mails (out st2) = sent_mails (out st1) ++ [m]
                    /\ mail_to m = "a@x.org")
      /\ (exists row, csv_file st2 = Some (rows_of (csv_file st1) ++ ["a@x.org" :: row]))
      /\ shutdown_requested st2 = true
      /\ one_pass signalled_in_send idle = (Normal tt, st3)
      /\ loop [signalled_in_send; pass [later]] idle = (Normal Stopped, st3))
  /\ recipients (out st3) = ["b@x.org"; "a@x.org"; "c@x.org"]
  /\ sleeps (out st3) = [].
Proof.
  intros cs slept1 first c later st1 st2 st3.
  destruct (shutdown_is_observed_at_the_next_checkpoint true 30 parseaddr me [spock] away)
    as (A & B).
  assert (for_messages body cs (snd (get_unread_messages signalled_in_sleep idle))
          = (Normal tt, slept1)) as Hcs by (vm_compute; reflexivity).
  assert (shutdown_requested slept1 = false) as Hflag1 by (vm_compute; reflexivity).
  assert (2 < Z.to_nat 30)%nat as Hlt by (vm_compute; lia).
  assert (forall j, (j < 2)%nat -> tick_signal signalled_in_sleep j = false) as Hquiet.
  { intros [|[|j]] Hj; [reflexivity|reflexivity|lia]. }
  assert (for_messages body [first] (snd (get_unread_messages signalled_in_send idle))
          = (Normal tt, st1)) as Hb by (vm_compute; reflexivity).
  assert (skip true me (replied_senders st1)
               (get_sender parseaddr (letter "a@x.org" "Hello")) = false)
    as Hskip by (vm_compute; reflexivity).
  assert (for_messages body [later] st2 = (Normal tt, st3)) as Hafter
    by (vm_compute; reflexivity).
  split; [repeat split; assumption|].
  split.
  { exact (A signalled_in_sleep [pass [later]] "{'messages': [...]}" cs idle slept1
             2%nat eq_refl eq_refl Hcs Hflag1 Hlt Hquiet eq_refl). }
  split; [vm_compute; reflexivity|].
  split; [repeat split; assumption|].
  split.
  { exact (B signalled_in_send [pass [later]] "{'messages': [...]}" [first] c [later]
             idle st1 st3 AtSend (letter "a@x.org" "Hello") spock
             eq_refl eq_refl Hb eq_refl eq_refl Hskip eq_refl eq_refl Hafter). }
  split; vm_compute; reflexivity.
Defined.
